(** * The workshop notebooks: perceptron, loss, optimiser, evaluation, grouping

    A shallow embedding of the notebook cells of the machine-learning
    workshop.  Arrays of floats are idealised as lists of real numbers, so
    every statement below is one of exact real arithmetic.  Python lists
    are lists; the one place where the notebooks mutate a list that is
    reachable from two names (the parameter list of the from-scratch
    training loop) is modelled with an explicit store of list objects.

    The first part holds the definitions, cell by cell; the second part the
    lemmas and the theorems. *)

From Stdlib Require Import Reals Lra Lia ZArith.
From stdpp Require Import base option list.

(** ** Arrays *)

Abbreviation vector := (list R).
Abbreviation matrix := (list (list R)).

(** The parameter lists of the perceptron mix rank-2 weights and rank-1
    biases. *)
Inductive array :=
  | Vec (v : vector)
  | Mat (m : matrix).

#[global] Instance R_inhabited : Inhabited R := populate 0%R.
#[global] Instance array_inhabited : Inhabited array := populate (Vec []).

(** Two arrays of one rank and one shape. *)
Definition same_shape (a b : array) : Prop :=
  match a, b with
  | Vec u, Vec v => length u = length v
  | Mat m, Mat n => Forall2 (fun r s => length r = length s) m n
  | _, _ => False
  end.

#[global] Instance same_shape_dec a b : Decision (same_shape a b).
Proof. destruct a, b; simpl; apply _. Defined.

(** ** The array-library operations the cells call ([jax.numpy as np])

    Shapes are checked where the library checks them: [None] stands for an
    operand pair the notebooks never build (the library raises there, or
    broadcasts a length-one operand). *)
Module np.

(** [np.sum] of a rank-1 array. *)
Definition sum (v : vector) : R := foldr Rplus 0%R v.

(** [np.exp], elementwise. *)
Definition exp (v : vector) : vector := map Rtrigo_def.exp v.

(** [np.log] of a rank-2 array, elementwise. *)
Definition log (a : matrix) : matrix := map (map ln) a.

(** [np.maximum(x, c)] against a scalar. *)
Definition maximum (v : vector) (c : R) : vector := map (fun t => Rmax t c) v.

(** [x / Z] for a scalar [Z]. *)
Definition divide (v : vector) (z : R) : vector := map (fun t => (t / z)%R) v.

Definition dot (a b : vector) : option R :=
  if decide (length a = length b) then Some (sum (zip_with Rmult a b)) else None.

(** [np.matmul] of a rank-2 by a rank-1 array: one dot product per row. *)
Definition matmul (w : matrix) (x : vector) : option vector :=
  mapM (fun row => dot row x) w.

(** [a + b] on rank-1 arrays of one length. *)
Definition add (a b : vector) : option vector :=
  if decide (length a = length b) then Some (zip_with Rplus a b) else None.

(** [a * b] on rank-2 arrays of one shape. *)
Definition multiply (a b : matrix) : option matrix :=
  if decide (same_shape (Mat a) (Mat b))
  then Some (zip_with (zip_with Rmult) a b) else None.

(** [c * a] for a scalar [c]. *)
Definition scale (c : R) (a : array) : array :=
  match a with
  | Vec v => Vec (map (Rmult c) v)
  | Mat m => Mat (map (map (Rmult c)) m)
  end.

(** [a - b] on arrays of one shape. *)
Definition subtract (a b : array) : option array :=
  if decide (same_shape a b) then
    match a, b with
    | Vec u, Vec v => Some (Vec (zip_with Rminus u v))
    | Mat m, Mat n => Some (Mat (zip_with (zip_with Rminus) m n))
    | _, _ => None
    end
  else None.

(** [np.mean] of a rank-2 array with no axis given: the sum of all the
    entries over their number. *)
Definition mean (a : matrix) : R :=
  (sum (concat a) / INR (length (concat a)))%R.

(** [np.argmax] of a rank-1 array: the first index that holds the
    maximum; an empty array is an error. *)
Fixpoint argmax_from (l : vector) (i : nat) (best : R) (best_i : nat) : nat :=
  match l with
  | [] => best_i
  | x :: t =>
      if Rlt_dec best x then argmax_from t (S i) x i
      else argmax_from t (S i) best best_i
  end.

Definition argmax (l : vector) : option nat :=
  match l with
  | [] => None
  | x :: t => Some (argmax_from t 1 x 0)
  end.

(** [np.zeros((r, c))]. *)
Definition zeros (r c : nat) : matrix := replicate r (replicate c 0%R).

(** [np.arange(n)]. *)
Definition arange (n : nat) : list nat := seq 0 n.

(** [np.min] of a rank-1 array of lengths. *)
Definition min (l : list nat) : option nat :=
  match l with
  | [] => None
  | x :: t => Some (foldr Nat.min x t)
  end.

(** Reading [a[i]] from a rank-1 array of integers: an index past the end
    is clamped to the last entry. *)
Definition item (a : list nat) (i : nat) : nat :=
  a !!! (i `min` (length a - 1)).

(** Reading [a[r, c]]: indices past the end are clamped. *)
Definition item2 (a : matrix) (r c : nat) : R :=
  let row := a !!! (r `min` (length a - 1)) in
  row !!! (c `min` (length row - 1)).

(** [a.at[r, c].set(v)]: a new array; an update past the end is dropped. *)
Definition at_set (a : matrix) (r c : nat) (v : R) : matrix :=
  match a !! r with
  | Some row => <[r := <[c := v]> row]> a
  | None => a
  end.

(** [a[inds]] on a host array (the image arrays stay host arrays): the
    rows at the indices; an index past the end is an error. *)
Definition rows_at {A} (a : list A) (inds : list nat) : option (list A) :=
  mapM (fun i => a !! i) inds.

(** [a[inds]] on a device array (the one-hot labels): the rows at the
    indices, an index past the end being clamped to the last row. *)
Definition rows_at_clamped `{Inhabited A} (a : list A) (inds : list nat)
  : list A :=
  (fun i => a !!! (i `min` (length a - 1))) <$> inds.

End np.

(** ** [jax] and [jax.nn] *)
Module jax.

(** [jax.vmap(f, in_axes=0, out_axes=0)]: [f] on every row. *)
Definition vmap {A B} (f : A -> option B) (xs : list A) : option (list B) :=
  mapM f xs.

(** [jax.nn.one_hot(L, num_classes)] of one label: the row of indicator
    values of [j = L]. *)
Definition one_hot (L : nat) (num_classes : nat) : vector :=
  map (fun j => if decide (j = L) then 1%R else 0%R) (np.arange num_classes).

(** [jax.nn.one_hot(y, num_classes, axis=-1)] of an array of labels: one
    row per label. *)
Definition one_hot_rows (y : list nat) (num_classes : nat) : matrix :=
  (fun L => one_hot L num_classes) <$> y.

End jax.

(** ** [jax.random as jr]

    The generator itself stays abstract: a key type, [fold_in], and the
    shuffle [permutation].  [choice] without replacement is the library's
    composition of them: the first [n_draws] entries of a shuffle of the
    population, and an error when more are asked than there are. *)
Module jr.

Class PRNG (key : Type) := {
  fold_in : key -> nat -> key;
  permutation : key -> list nat -> list nat
}.

(** What the library promises of [permutation]. *)
Definition shuffles `{PRNG key} : Prop :=
  forall (k : key) (a : list nat), permutation k a ≡ₚ a.

(** [jr.choice(k, a, (n_draws,), replace=False)]. *)
Definition choice `{PRNG key} (k : key) (a : list nat) (n_draws : nat)
  : option (list nat) :=
  if decide (n_draws <= length a) then Some (take n_draws (permutation k a))
  else None.

(** The rest of the generator the notebooks use: [split], and the normal
    sampler at the two ranks the perceptron asks for. *)
Class Sampler (key : Type) := {
  split : key -> nat -> list key;
  normal_vec : key -> nat -> vector;
  normal_mat : key -> nat -> nat -> matrix
}.

(** What the library promises of them: as many keys as asked, and arrays
    of the shape asked. *)
Definition shapes_as_asked `{Sampler key} : Prop :=
  (forall (k : key) n, length (split k n) = n) /\
  (forall (k : key) n, length (normal_vec k n) = n) /\
  (forall (k : key) r c,
     length (normal_mat k r c) = r /\
     Forall (fun row => length row = c) (normal_mat k r c)).

End jr.

(** ** [workshop_mlp_from_scratch] *)
Module Scratch.

(** The network object, by the values of its two attributes: each a list
    of arrays. *)
Record SimpleNetwork := {
  weights : list array;
  bias : list array
}.

Definition linear_layer (x : vector) (weights : matrix) (bias : vector)
  : option vector :=
  h ← np.matmul weights x; np.add h bias.

Definition relu_activation (x : vector) : vector := np.maximum x 0.

Definition softmax_activation (x : vector) : vector :=
  let Z := np.sum (np.exp x) in
  np.divide (np.exp x) Z.

(** Indexing a parameter list at the rank the forward pass uses it. *)
Definition mat_at (l : list array) (i : nat) : option matrix :=
  a ← l !! i; match a with Mat m => Some m | Vec _ => None end.

Definition vec_at (l : list array) (i : nat) : option vector :=
  a ← l !! i; match a with Vec v => Some v | Mat _ => None end.

(** [SimpleNetwork.__call__]. *)
Definition call (self : SimpleNetwork) (x : vector) : option vector :=
  w0 ← mat_at (weights self) 0;
  b0 ← vec_at (bias self) 0;
  h1 ← linear_layer x w0 b0;
  let h2 := relu_activation h1 in
  w1 ← mat_at (weights self) 1;
  b1 ← vec_at (bias self) 1;
  h3 ← linear_layer h2 w1 b1;
  let h4 := softmax_activation h3 in
  Some h4.

(** The shapes [__init__] gives the parameters. *)
Definition has_shape (m : matrix) (rows cols : nat) : Prop :=
  length m = rows /\ Forall (fun r => length r = cols) m.

Definition params_shaped (P : list array)
    (input_size hidden_size output_size : nat) : Prop :=
  exists w0 w1 b0 b1,
    P = [Mat w0; Mat w1; Vec b0; Vec b1] /\
    has_shape w0 hidden_size input_size /\
    has_shape w1 output_size hidden_size /\
    length b0 = hidden_size /\ length b1 = output_size.

Definition well_shaped (self : SimpleNetwork)
    (input_size hidden_size output_size : nat) : Prop :=
  params_shaped (weights self ++ bias self) input_size hidden_size output_size
  /\ length (weights self) = 2.

(** *** The store

    Arrays are immutable values.  Lists are objects: the store keeps them
    by address, and the network object keeps the addresses of the lists
    bound to its two attributes.  The notebook has one network object,
    [nn]; it is the [model] every call of [loss] is given. *)
Abbreviation loc := nat (only parsing).

Record store := {
  lists : list (list array);
  nn_weights : loc;
  nn_bias : loc
}.

(** A list display [[a, b, ...]] builds a new list object. *)
Definition alloc (l : list array) (h : list (list array))
  : loc * list (list array) :=
  (length h, h ++ [l]).

(** The network as the store holds it. *)
Definition read_model (s : store) : option SimpleNetwork :=
  W ← lists s !! nn_weights s;
  B ← lists s !! nn_bias s;
  Some {| weights := W; bias := B |}.

(** [nn_params = [nn.weights[0], nn.weights[1], nn.bias[0], nn.bias[1]]]. *)
Definition init_params (s : store) : option (loc * store) :=
  W ← lists s !! nn_weights s;
  B ← lists s !! nn_bias s;
  w0 ← W !! 0; w1 ← W !! 1; b0 ← B !! 0; b1 ← B !! 1;
  let '(l, h) := alloc [w0; w1; b0; b1] (lists s) in
  Some (l, {| lists := h; nn_weights := nn_weights s; nn_bias := nn_bias s |}).

(** The body of [loss]: it binds the attributes of [model] to two new
    lists made of the entries of [model_params], runs the network on every
    row of [x], and returns the negated mean.  Under the decorator the
    entries are the traced parameters; they are represented by the values
    they stand for, which is what the forward pass inside the call
    computes with.  Once the call has returned, the two lists of the code
    still hold those tracers: the entries recorded here are not arrays
    the network could be called on. *)
Definition loss_body (model_params : loc) (x y : matrix) (s : store)
  : option (R * store) :=
  P ← lists s !! model_params;
  p0 ← P !! 0; p1 ← P !! 1;
  let '(lw, h1) := alloc [p0; p1] (lists s) in
  let s1 := {| lists := h1; nn_weights := lw; nn_bias := nn_bias s |} in
  p2 ← P !! 2; p3 ← P !! 3;
  let '(lb, h2) := alloc [p2; p3] (lists s1) in
  let s2 := {| lists := h2; nn_weights := nn_weights s1; nn_bias := lb |} in
  model ← read_model s2;
  y_predicted ← jax.vmap (call model) x;
  prod ← np.multiply y (np.log y_predicted);
  Some ((- np.mean prod)%R, s2).

(** [loss] as decorated with [jax.value_and_grad]: the value together with
    the gradient in the first argument.  The differentiation is the
    library's; [grad] stands for what it returns. *)
Definition loss (grad : list array -> matrix -> matrix -> list array)
    (model_params : loc) (x y : matrix) (s : store)
  : option ((R * list array) * store) :=
  P ← lists s !! model_params;
  '(v, s') ← loss_body model_params x y s;
  Some ((v, grad P x y), s').

(** The loop of [optimiser] on the entries of the list it is given:
    [model_parameters[i] -= learn_rate*dm] for [i, dm] in
    [enumerate(gradient)]. *)
Definition optimiser_loop (model_parameters gradient : list array)
    (learn_rate : R) : option (list array) :=
  foldl (fun acc '(i, dm) =>
           P ← acc;
           p ← P !! i;
           q ← np.subtract p (np.scale learn_rate dm);
           Some (<[i := q]> P))
        (Some model_parameters) (imap pair gradient).

(** [optimiser]: the loop runs in place on the list object behind
    [model_parameters], and the same object is returned. *)
Definition optimiser (model_parameters : loc) (gradient : list array)
    (learn_rate : R) (s : store) : option (loc * store) :=
  P ← lists s !! model_parameters;
  P' ← optimiser_loop P gradient learn_rate;
  Some (model_parameters,
        {| lists := <[model_parameters := P']> (lists s);
           nn_weights := nn_weights s; nn_bias := nn_bias s |}).

(** One turn of the training loop once the batch is drawn. *)
Definition train_step (grad : list array -> matrix -> matrix -> list array)
    (nn_params : loc) (x y : matrix) (s : store)
  : option (R * loc * store) :=
  '((loss_value, g), s1) ← loss grad nn_params x y s;
  '(nn_params', s2) ← optimiser nn_params g (1 / 10)%R s1;
  Some (loss_value, nn_params', s2).

(** The draw of the batch indices at step [i]. *)
Definition inds `{jr.PRNG key} (k : key) (i : nat) (BATCH_SIZE : nat)
  : option (list nat) :=
  let train_key := jr.fold_in k i in
  jr.choice train_key (np.arange (Z.to_nat 60000)) BATCH_SIZE.

(** [SimpleNetwork.__init__]: four keys, and normal samples scaled by
    [0.01]. *)
Definition init `{jr.Sampler key}
    (input_size hidden_size output_size : nat) (k : key)
  : option SimpleNetwork :=
  match jr.split k 4 with
  | [key1; key2; key3; key4] =>
      Some {| weights :=
                [np.scale (1 / 100)%R
                   (Mat (jr.normal_mat key1 hidden_size input_size));
                 np.scale (1 / 100)%R
                   (Mat (jr.normal_mat key2 output_size hidden_size))];
              bias :=
                [np.scale (1 / 100)%R (Vec (jr.normal_vec key3 hidden_size));
                 np.scale (1 / 100)%R (Vec (jr.normal_vec key4 output_size))] |}
  | _ => None
  end.

(** The network of the store, called on an input. *)
Definition nn_call (s : store) (x : vector) : option vector :=
  model ← read_model s; call model x.

(** The last two lines of the training cell:
    [nn.weights = nn_params[0],nn_params[1]] and
    [nn.bias = nn_params[2],nn_params[3]].  The two tuples are new
    objects, kept in the store like the lists. *)
Definition write_back (nn_params : loc) (s : store) : option store :=
  P ← lists s !! nn_params;
  p0 ← P !! 0; p1 ← P !! 1;
  let '(lw, h1) := alloc [p0; p1] (lists s) in
  let s1 := {| lists := h1; nn_weights := lw; nn_bias := nn_bias s |} in
  p2 ← P !! 2; p3 ← P !! 3;
  let '(lb, h2) := alloc [p2; p3] (lists s1) in
  Some {| lists := h2; nn_weights := nn_weights s1; nn_bias := lb |}.

(** The state of the training loop: the parameter list, the log of the
    losses, the lines written (step and loss), and the store. *)
Record training := {
  params_at : loc;
  loss_log : list R;
  written : list (nat * R);
  at_store : store
}.

(** One turn of the loop, at step [i]. *)
Definition train_turn `{jr.PRNG key}
    (grad : list array -> matrix -> matrix -> list array) (k : key)
    (x_train_flat y_train_1hot : matrix) (BATCH_SIZE : nat)
    (t : training) (i : nat) : option training :=
  inds ← inds k i BATCH_SIZE;
  x ← np.rows_at x_train_flat inds;
  let y := np.rows_at_clamped y_train_1hot inds in
  '(loss_value, nn_params, s) ← train_step grad (params_at t) x y (at_store t);
  Some {| params_at := nn_params;
          loss_log := loss_log t ++ [loss_value];
          written := if decide (i mod 10 = 0)
                     then written t ++ [(i, loss_value)] else written t;
          at_store := s |}.

(** [for i in range(TRAIN_ITERS)]. *)
Definition train_loop `{jr.PRNG key}
    (grad : list array -> matrix -> matrix -> list array) (k : key)
    (x_train_flat y_train_1hot : matrix) (BATCH_SIZE TRAIN_ITERS : nat)
    (t : training) : option training :=
  foldl (fun acc i =>
           acc ≫= fun t => train_turn grad k x_train_flat y_train_1hot
                             BATCH_SIZE t i)
        (Some t) (seq 0 TRAIN_ITERS).

(** The training cell: fold the key, build the network and the parameter
    list, run the loop for 1000 steps on batches of 64, write the
    parameters back into the network. *)
Definition training_cell `{jr.PRNG key} `{jr.Sampler key}
    (grad : list array -> matrix -> matrix -> list array) (key0 : key)
    (x_train_flat y_train_1hot : matrix) : option training :=
  let k := jr.fold_in key0 1 in
  nn ← init (28 * 28) 100 10 k;
  '(nn_params, s) ← init_params {| lists := [weights nn; bias nn];
                                   nn_weights := 0; nn_bias := 1 |};
  t ← train_loop grad k x_train_flat y_train_1hot 64 1000
        {| params_at := nn_params; loss_log := []; written := [];
           at_store := s |};
  s' ← write_back (params_at t) (at_store t);
  Some {| params_at := params_at t; loss_log := loss_log t;
          written := written t; at_store := s' |}.

End Scratch.

(** ** [workshop_mlp_equinox_and_optax] *)
Module Eqx.

(** [eqx.nn.Linear]: a weight of shape (out, in) and a bias of shape
    (out), applied as [weight @ x + bias]. *)
Record Linear := {
  weight : matrix;
  bias : vector
}.

(** The callables [__init__] stores in [layers].  [jax.nn.relu] and
    [jax.nn.softmax] are the functions the from-scratch notebook writes
    out by hand (the library's softmax first subtracts the largest logit,
    which leaves the quotient unchanged in exact arithmetic). *)
Inductive layer :=
  | linear (l : Linear)
  | relu
  | softmax.

Definition apply (L : layer) (x : vector) : option vector :=
  match L with
  | linear l => Scratch.linear_layer x (weight l) (bias l)
  | relu => Some (Scratch.relu_activation x)
  | softmax => Some (Scratch.softmax_activation x)
  end.

Record SimpleNetwork := {
  layers : list layer
}.

(** [SimpleNetwork.__call__]: [for L in self.layers: x = L(x)]. *)
Definition call (self : SimpleNetwork) (x : vector) : option vector :=
  foldl (fun acc L => acc ≫= apply L) (Some x) (layers self).

(** The layers [__init__] builds, for the sizes it is given. *)
Definition well_shaped (self : SimpleNetwork)
    (input_size hidden_size output_size : nat) : Prop :=
  exists l1 l2,
    layers self = [linear l1; relu; linear l2; softmax] /\
    Scratch.has_shape (weight l1) hidden_size input_size /\
    length (bias l1) = hidden_size /\
    Scratch.has_shape (weight l2) output_size hidden_size /\
    length (bias l2) = output_size.

(** The value [loss] returns (its decorator pairs it with the gradient). *)
Definition loss (model : vector -> option vector) (x y : matrix) : option R :=
  y_predicted ← jax.vmap model x;
  prod ← np.multiply y (np.log y_predicted);
  Some (- np.mean prod)%R.

(** The draw of the batch indices at step [i] of [train]. *)
Definition inds `{jr.PRNG key} (k : key) (i : nat) (BATCH_SIZE : nat)
  : option (list nat) :=
  let train_key := jr.fold_in k i in
  jr.choice train_key (np.arange (Z.to_nat 60000)) BATCH_SIZE.

(** *** The data cell (the same in both perceptron notebooks) *)

(** [einops.rearrange(x_train, "batches w h -> batches (w h)") / 255.0]:
    every image is laid out row after row, and every pixel divided by
    255.  The same expression builds [x_test_flat]. *)
Definition x_train_flat (x_train : list (list (list nat))) : matrix :=
  (fun image => (fun pixel => (INR pixel / 255)%R) <$> concat image)
    <$> x_train.

(** [jax.nn.one_hot(y_train, num_classes=10, axis=-1)]; the same
    expression builds [y_test_1hot]. *)
Definition y_train_1hot (y_train : list nat) : matrix :=
  jax.one_hot_rows y_train 10.

(** *** The evaluation cell (the same in both perceptron notebooks) *)

Definition y_test_predictions (nn : vector -> option vector)
    (x_test_flat : matrix) : option (list nat) :=
  out ← jax.vmap nn x_test_flat; mapM np.argmax out.

(** The body of the loop at index [i].  The loop runs over
    [range(len(y_test))], so the read of [y_test[i]] is always inside the
    array. *)
Definition confusion_step (y_test predictions : list nat)
    (confusion_matrix : matrix) (i : nat) : matrix :=
  let t := y_test !!! i in
  let p := np.item predictions i in
  np.at_set confusion_matrix t p (np.item2 confusion_matrix t p + 1)%R.

(** The matrix after the first [n] turns of the loop. *)
Definition confusion_after (y_test predictions : list nat) (n : nat) : matrix :=
  foldl (confusion_step y_test predictions) (np.zeros 10 10) (seq 0 n).

Definition confusion_matrix (y_test predictions : list nat) : matrix :=
  confusion_after y_test predictions (length y_test).

End Eqx.

(** ** The neural-ODE notebook *)
Module NeuralODE.

(** [x[mask]]: the rows of [x] where the mask holds. *)
Definition mask_index {A} (x : list A) (mask : list bool) : list A :=
  fst <$> filter (fun p => Is_true (snd p)) (zip x mask).

(** [y_train == i]. *)
Definition eq_mask (y_train : list nat) (i : nat) : list bool :=
  (fun t => bool_decide (t = i)) <$> y_train.

(** The body of the first loop: append the rows of class [i], then the
    number of them. *)
Definition group_step {A} (x_train : list A) (y_train : list nat)
    (st : list (list A) * list nat) (i : nat) : list (list A) * list nat :=
  let '(x_train_grouped, lengths) := st in
  let x_train_grouped :=
    x_train_grouped ++ [mask_index x_train (eq_mask y_train i)] in
  let lengths := lengths ++ [length (x_train_grouped !!! i)] in
  (x_train_grouped, lengths).

(** The body of the second loop:
    [x_train_grouped[i] = x_train_grouped[i][:minlength]]. *)
Definition truncate_step {A} (minlength : nat) (x_train_grouped : list (list A))
    (i : nat) : list (list A) :=
  <[i := take minlength (x_train_grouped !!! i)]> x_train_grouped.

(** The grouping cell, up to the truncation. *)
Definition x_train_grouped {A} (x_train : list A) (y_train : list nat)
  : option (list (list A)) :=
  let '(grouped, lengths) :=
    foldl (group_step x_train y_train) ([], []) (seq 0 10) in
  minlength ← np.min lengths;
  Some (foldl (truncate_step minlength) grouped (seq 0 10)).

(** The key of step [i] of [train]: the key is folded once before the
    loop and once more in every turn. *)
Definition train_key `{jr.PRNG key} (k : key) (i : nat) : key :=
  foldl jr.fold_in (jr.fold_in k 1) (seq 0 (S i)).

(** The draw of the batch indices at step [i] of [train]. *)
Definition inds `{jr.PRNG key} (k : key) (i : nat) (BATCH_SIZE : nat)
  : option (list nat) :=
  jr.choice (train_key k i) (np.arange (Z.to_nat 5421)) BATCH_SIZE.

(** [x_train[:,np.newaxis] / 255.0]: every image gets a channel axis of
    length one, and every pixel is divided by 255. *)
Definition x_train (mnist_x_train : list (list (list nat)))
  : list (list matrix) :=
  (fun image : list (list nat) =>
     [(fun row : list nat => (fun pixel => (INR pixel / 255)%R) <$> row)
        <$> image])
    <$> mnist_x_train.

(** [einops.rearrange(x_train_grouped,
    "numbers N b x y -> N (b numbers) () x y")] on the list of groups.
    The list is stacked along a new first axis, which needs the groups of
    one shape: [N] samples each, of [b] channels each (the images come out
    of one array, so their planes have one shape).  In the merged axis [b]
    runs slowest; [()] is a new axis of length one. *)
Definition rearrange {Img} (x_train_grouped : list (list (list Img)))
  : option (list (list (list Img))) :=
  g ← head x_train_grouped;
  let numbers := length x_train_grouped in
  let N := length g in
  let b := from_option length 0 (head g) in
  if decide (Forall (fun h => length h = N /\
                              Forall (fun sample => length sample = b) h)
               x_train_grouped)
  then mapM (fun n =>
               mapM (fun j =>
                       h ← x_train_grouped !! (j mod numbers);
                       sample ← h !! n;
                       plane ← sample !! (j / numbers);
                       Some [plane])
                    (seq 0 (b * numbers)))
            (seq 0 N)
  else None.

(** The data cell: scale, group, cut, rearrange, then
    [X0 = x_train_grouped[:,0]] and [XT = x_train_grouped[:,1:]]. *)
Definition data_cell (mnist_x_train : list (list (list nat)))
    (y_train : list nat)
  : option (list (list matrix) * list (list (list matrix))) :=
  grouped ← x_train_grouped (x_train mnist_x_train) y_train;
  arr ← rearrange grouped;
  X0 ← mapM (fun row => row !! 0) arr;
  let XT := drop 1 <$> arr in
  Some (X0, XT).

(** The batch of step [i] of [train]: [x0 = X0[inds]] and
    [xt = XT[inds]], on the host arrays of the data cell. *)
Definition batch `{jr.PRNG key} {S0 ST} (k : key) (i BATCH_SIZE : nat)
    (X0 : list S0) (XT : list ST) : option (list S0 * list ST) :=
  inds ← inds k i BATCH_SIZE;
  x0 ← np.rows_at X0 inds;
  xt ← np.rows_at XT inds;
  Some (x0, xt).

End NeuralODE.

(** ** Vocabulary of the statements *)

(** A probability vector: entries at least zero, summing to one. *)
Definition probability_vector (p : vector) : Prop :=
  Forall (fun t => (0 <= t)%R) p /\ np.sum p = 1%R.

(** [f] maps [x] to the softmax of [n] logits. *)
Definition softmax_of_logits (f : vector -> option vector) (x : vector)
    (n : nat) : Prop :=
  exists h, length h = n /\ f x = Some (Scratch.softmax_activation h).

(** The store [loss] leaves behind: two new lists, bound to the two
    attributes of the network. *)
Definition after_loss (s : Scratch.store) (p0 p1 p2 p3 : array)
  : Scratch.store :=
  {| Scratch.lists := Scratch.lists s ++ [[p0; p1]; [p2; p3]];
     Scratch.nn_weights := length (Scratch.lists s);
     Scratch.nn_bias := S (length (Scratch.lists s)) |}.

(** The training images of class [c], in the order of the data set. *)
Definition rows_of_class {A} (x_train : list A) (y_train : list nat) (c : nat)
  : list A :=
  NeuralODE.mask_index x_train (NeuralODE.eq_mask y_train c).

(** The number of samples whose label is [c]. *)
Definition class_count (labels : list nat) (c : nat) : nat :=
  length (filter (fun t => t = c) labels).

(** The number of test samples of true label [r] predicted as [c]. *)
Definition cell_count (y_test predictions : list nat) (r c : nat) : nat :=
  length (filter (fun tp => fst tp = r /\ snd tp = c) (zip y_test predictions)).

(** The number of test samples whose prediction is their true label. *)
Definition correct_count (y_test predictions : list nat) : nat :=
  length (filter (fun tp => fst tp = snd tp) (zip y_test predictions)).

(** What holds of the from-scratch training loop after [n] turns: the
    parameter list is still the list at [l] and has the shapes of the
    network, the log holds [n] losses, and the lines written are the
    entries of the log at the steps that are multiples of ten. *)
Definition after_turns (input_size hidden_size output_size : nat)
    (l : nat) (n : nat) (t : Scratch.training) : Prop :=
  Scratch.params_at t = l /\
  (exists P, Scratch.lists (Scratch.at_store t) !! l = Some P /\
     Scratch.params_shaped P input_size hidden_size output_size) /\
  length (Scratch.loss_log t) = n /\
  Scratch.written t
  = filter (fun jv : nat * R => fst jv mod 10 = 0)
      (imap pair (Scratch.loss_log t)).

(** The index pair [r, c] falls inside the array. *)
Definition in_bounds (a : matrix) (r c : nat) : Prop :=
  exists row, a !! r = Some row /\ c < length row.

(** Every entry of the array is zero. *)
Definition all_zero (a : array) : Prop :=
  match a with
  | Vec v => Forall (fun t => t = 0%R) v
  | Mat m => Forall (Forall (fun t => t = 0%R)) m
  end.

(** A gradient that mirrors the parameter list, with all entries zero. *)
Definition zero_gradient (params gradient : list array) : Prop :=
  Forall2 (fun p dm => same_shape p dm /\ all_zero dm) params gradient.

(** The updated entry [p - learn_rate*dm]. *)
Definition descent (learn_rate : R) (p dm : array) : array :=
  default p (np.subtract p (np.scale learn_rate dm)).

(** A draw of [n_draws] indices from a pool of [pool]: it succeeds, and
    the indices are pairwise distinct, [n_draws] in number, and all in the
    pool. *)
Definition distinct_draw (pool n_draws : nat) (draw : option (list nat)) : Prop :=
  exists inds, draw = Some inds /\ NoDup inds /\ length inds = n_draws /\
    Forall (fun i => i < pool) inds.

(** The sum of [f i] over [i < n]. *)
Fixpoint sum_upto (n : nat) (f : nat -> R) : R :=
  match n with
  | O => 0%R
  | S n => (sum_upto n f + f n)%R
  end.

(** The entry of a rank-2 array at row [b], column [c]. *)
Definition entry (a : matrix) (b c : nat) : R := (a !!! b) !!! c.

(** The sum over the [B] batch rows and the ten classes of
    [y * log(prediction)]. *)
Definition batch_class_sum (B : nat) (y y_predicted : matrix) : R :=
  sum_upto B (fun b =>
    sum_upto 10 (fun c => (entry y b c * ln (entry y_predicted b c))%R)).

(** ** A small instance

    A 784-to-1-to-10 network with all parameters zero, a batch of one
    blank image labelled 3, and the store of the from-scratch notebook
    once [nn_params] is built: the two attribute lists at addresses 0 and
    1, the parameter list at address 2. *)
Definition example_w0 : matrix := [replicate 784 0%R].
Definition example_b0 : vector := [0%R].
Definition example_w1 : matrix := replicate 10 [0%R].
Definition example_b1 : vector := replicate 10 0%R.

Definition example_network : Eqx.SimpleNetwork :=
  {| Eqx.layers :=
       [Eqx.linear {| Eqx.weight := example_w0; Eqx.bias := example_b0 |};
        Eqx.relu;
        Eqx.linear {| Eqx.weight := example_w1; Eqx.bias := example_b1 |};
        Eqx.softmax] |}.

Definition example_scratch_network : Scratch.SimpleNetwork :=
  {| Scratch.weights := [Mat example_w0; Mat example_w1];
     Scratch.bias := [Vec example_b0; Vec example_b1] |}.

Definition example_params : list array :=
  [Mat example_w0; Mat example_w1; Vec example_b0; Vec example_b1].

Definition example_store : Scratch.store :=
  {| Scratch.lists :=
       [[Mat example_w0; Mat example_w1]; [Vec example_b0; Vec example_b1];
        example_params];
     Scratch.nn_weights := 0;
     Scratch.nn_bias := 1 |}.

(** The same store one update later, when the gradient of the output
    bias was not zero: the parameter list has moved, the attributes of
    the network have not. *)
Definition example_store_updated : Scratch.store :=
  {| Scratch.lists :=
       [[Mat example_w0; Mat example_w1]; [Vec example_b0; Vec example_b1];
        [Mat example_w0; Mat example_w1; Vec example_b0;
         Vec (replicate 10 1%R)]];
     Scratch.nn_weights := 0;
     Scratch.nn_bias := 1 |}.

Definition example_x : matrix := [replicate 784 0%R].
Definition example_y : matrix := [jax.one_hot 3 10].

(** A stand-in for the differentiation: a gradient of the shape of the
    parameters. *)
Definition example_grad (P : list array) (x y : matrix) : list array := P.

(** A generator whose shuffle reverses its input. *)
Definition example_prng : jr.PRNG nat :=
  {| jr.fold_in := Nat.add; jr.permutation := fun _ a => reverse a |}.

(** A store that holds the parameter list of the small instance and a
    network whose two attributes are both bound to it. *)
Definition example_store_bare : Scratch.store :=
  {| Scratch.lists := [example_params];
     Scratch.nn_weights := 0;
     Scratch.nn_bias := 0 |}.

(** A blank 28-by-28 image, and a sampler that returns arrays of zeros
    and as many copies of its key as asked. *)
Definition example_image : list (list nat) := replicate 28 (replicate 28 0).

Definition example_sampler : jr.Sampler nat :=
  {| jr.split := fun k n => replicate n k;
     jr.normal_vec := fun _ n => replicate n 0%R;
     jr.normal_mat := fun _ r c => replicate r (replicate c 0%R) |}.

(** * Lemmas and theorems *)

(** ** Sums *)
Section Sums.
Local Open Scope R_scope.

Lemma sum_nil : np.sum [] = 0.
Proof. reflexivity. Qed.

Lemma sum_cons x v : np.sum (x :: v) = x + np.sum v.
Proof. reflexivity. Qed.

Lemma sum_app u v : np.sum (u ++ v) = np.sum u + np.sum v.
Proof.
  induction u as [|x u IH]; cbn [app].
  - rewrite sum_nil. lra.
  - rewrite !sum_cons, IH. lra.
Qed.

Lemma sum_divide v z : np.sum (np.divide v z) = np.sum v / z.
Proof.
  unfold np.divide. induction v as [|x v IH]; cbn [map].
  - rewrite sum_nil. unfold Rdiv. lra.
  - rewrite !sum_cons, IH. unfold Rdiv. lra.
Qed.

Lemma sum_exp_pos v : v <> [] -> 0 < np.sum (np.exp v).
Proof.
  intros Hne. destruct v as [|x v]; [done|]. clear Hne.
  unfold np.exp. revert x. induction v as [|y v IH]; intros x;
    cbn [map]; rewrite sum_cons.
  - rewrite sum_nil. pose proof (exp_pos x). lra.
  - specialize (IH y). cbn [map] in IH. pose proof (exp_pos x). lra.
Qed.

Lemma sum_concat (a : matrix) : np.sum (concat a) = np.sum (np.sum <$> a).
Proof.
  induction a as [|r a IH]; [done|].
  cbn [concat fmap list_fmap]. rewrite sum_app, sum_cons, IH. done.
Qed.

Lemma sum_replicate_0 n : np.sum (replicate n 0) = 0.
Proof.
  induction n as [|n IH]; [done|].
  change (replicate (S n) 0) with (0 :: replicate n 0).
  rewrite sum_cons, IH. lra.
Qed.

(** Overwriting one entry moves the sum by the difference. *)
Lemma sum_insert (v : list R) i old new :
  v !! i = Some old -> np.sum (<[i := new]> v) = np.sum v - old + new.
Proof.
  revert i. induction v as [|x v IH]; intros [|i] H; try done.
  - injection H as ->.
    change (<[0%nat := new]> (old :: v)) with (new :: v).
    rewrite !sum_cons. lra.
  - change (<[S i := new]> (x :: v)) with (x :: <[i := new]> v).
    rewrite !sum_cons, (IH i H). lra.
Qed.

End Sums.

(** ** Shapes along the forward pass *)
Section ForwardPass.
Local Open Scope R_scope.
Import Scratch.

Lemma length_matmul w x h : np.matmul w x = Some h -> length h = length w.
Proof. intros H. symmetry. eapply length_mapM, H. Qed.

Lemma matmul_is_Some w x :
  Forall (fun r => length r = length x) w -> is_Some (np.matmul w x).
Proof.
  intros H. unfold np.matmul. apply mapM_is_Some.
  eapply Forall_impl; [exact H|]. intros r Hr. unfold compose, np.dot.
  simpl in Hr. rewrite decide_True by done. eauto.
Qed.

Lemma add_Some a b :
  length a = length b ->
  exists c, np.add a b = Some c /\ length c = length a.
Proof.
  intros H. unfold np.add. rewrite decide_True by done.
  eexists; split; [done|]. rewrite length_zip_with; lia.
Qed.

Lemma linear_layer_Some x w b rows :
  has_shape w rows (length x) -> length b = rows ->
  exists h, linear_layer x w b = Some h /\ length h = rows.
Proof.
  intros [Hr Hc] Hb. unfold linear_layer.
  destruct (matmul_is_Some w x Hc) as [h Hh]. rewrite Hh. simpl.
  pose proof (length_matmul _ _ _ Hh) as Hl.
  destruct (add_Some h b) as (c & Hc' & Hlc); [lia|].
  exists c. split; [done|]. lia.
Qed.

Lemma length_relu x : length (relu_activation x) = length x.
Proof. unfold relu_activation, np.maximum. by rewrite length_map. Qed.

Lemma length_softmax x : length (softmax_activation x) = length x.
Proof.
  unfold softmax_activation, np.divide, np.exp. by rewrite !length_map.
Qed.

Lemma softmax_pos x : Forall (fun t => 0 < t) (softmax_activation x).
Proof.
  destruct x as [|a x]; [constructor|].
  assert (HZ : 0 < np.sum (np.exp (a :: x))) by (by apply sum_exp_pos).
  unfold softmax_activation, np.divide.
  apply Forall_map, Forall_forall. intros e He.
  unfold np.exp in He. apply list_elem_of_fmap in He as (t & -> & _).
  simpl. pose proof (exp_pos t).
  apply Rdiv_lt_0_compat; done.
Qed.

Lemma softmax_sum x : x <> [] -> np.sum (softmax_activation x) = 1.
Proof.
  intros Hne. unfold softmax_activation. rewrite sum_divide.
  pose proof (sum_exp_pos x Hne). field. lra.
Qed.

Lemma softmax_probability_vector h :
  h <> [] -> probability_vector (softmax_activation h).
Proof.
  intros Hne. split; [|by apply softmax_sum].
  eapply Forall_impl; [apply softmax_pos|]. intros t Ht. simpl in *. lra.
Qed.

Lemma scratch_call_softmax self x hidden_size output_size :
  well_shaped self (length x) hidden_size output_size ->
  softmax_of_logits (call self) x output_size.
Proof.
  intros [(w0 & w1 & b0 & b1 & HP & S0 & S1 & L0 & L1) Hlen].
  destruct self as [W B]. simpl in *.
  destruct W as [|a0 [|a1 [|? ?]]]; try done. simpl in HP.
  injection HP as -> -> ->.
  unfold softmax_of_logits, call, mat_at, vec_at. cbn [weights bias lookup list_lookup mbind option_bind].
  destruct (linear_layer_Some x w0 b0 hidden_size S0 L0) as (h1 & E1 & Lh1).
  rewrite E1. cbn [mbind option_bind].
  destruct (linear_layer_Some (relu_activation h1) w1 b1 output_size)
    as (h3 & E3 & Lh3).
  { by rewrite length_relu, Lh1. }
  { done. }
  rewrite E3. exists h3. done.
Qed.

Lemma eqx_call_softmax (self : Eqx.SimpleNetwork) x hidden_size output_size :
  Eqx.well_shaped self (length x) hidden_size output_size ->
  softmax_of_logits (Eqx.call self) x output_size.
Proof.
  intros (l1 & l2 & HL & S1 & B1 & S2 & B2).
  unfold softmax_of_logits, Eqx.call. rewrite HL. cbn [foldl Eqx.apply mbind option_bind].
  destruct (linear_layer_Some x _ _ hidden_size S1 B1) as (h1 & E1 & Lh1).
  rewrite E1. cbn [mbind option_bind].
  destruct (linear_layer_Some (relu_activation h1) (Eqx.weight l2) (Eqx.bias l2)
              output_size) as (h3 & E3 & Lh3).
  { by rewrite length_relu, Lh1. }
  { done. }
  cbn [Eqx.apply mbind option_bind]. rewrite E3. exists h3. done.
Qed.

End ForwardPass.

(** ** The small instance is well shaped *)
Section ExampleFacts.
Import Scratch.

Lemma example_w0_shape : has_shape example_w0 1 784.
Proof. split; [done|]. repeat constructor. Qed.

Lemma example_w1_shape : has_shape example_w1 10 1.
Proof.
  split; [apply length_replicate|]. by apply Forall_replicate.
Qed.

Lemma example_network_shaped : Eqx.well_shaped example_network 784 1 10.
Proof.
  eexists _, _. split; [done|]. cbn [Eqx.weight Eqx.bias].
  split; [apply example_w0_shape|]. split; [done|].
  split; [apply example_w1_shape|]. apply length_replicate.
Qed.

Lemma example_params_shaped : params_shaped example_params 784 1 10.
Proof.
  exists example_w0, example_w1, example_b0, example_b1. split; [done|].
  split; [apply example_w0_shape|]. split; [apply example_w1_shape|].
  split; [done|]. apply length_replicate.
Qed.

Lemma example_scratch_network_shaped :
  well_shaped example_scratch_network 784 1 10.
Proof. split; [apply example_params_shaped|done]. Qed.

Lemma example_x_shape : has_shape example_x 1 784.
Proof. split; [done|]. repeat constructor. Qed.

Lemma example_x_row : length (replicate 784 0%R) = 784.
Proof. apply length_replicate. Qed.

Lemma example_y_shape : has_shape example_y 1 10.
Proof. split; [done|]. repeat constructor. Qed.

Lemma same_shape_refl (a : array) : same_shape a a.
Proof. destruct a as [v|m]; simpl; [done|]. induction m; by constructor. Qed.

Lemma example_grad_shape (P : list array) (x y : matrix) :
  Forall2 same_shape P (example_grad P x y).
Proof.
  unfold example_grad. induction P; constructor; [apply same_shape_refl|done].
Qed.

Lemma example_prng_shuffles : @jr.shuffles nat example_prng.
Proof. intros k a. apply reverse_Permutation. Qed.

(** The store of the small instance is the one the notebook builds: the
    network's two lists, then the list [nn_params] made of their
    entries. *)
Example example_store_from_init_params :
  init_params {| lists := [[Mat example_w0; Mat example_w1];
                           [Vec example_b0; Vec example_b1]];
                 nn_weights := 0; nn_bias := 1 |}
  = Some (2, example_store).
Proof. reflexivity. Qed.

(** [nn_params] is a new list: no attribute of the network refers to it. *)
Lemma init_params_fresh s l s' :
  init_params s = Some (l, s') ->
  l = length (lists s) /\ nn_weights s' <> l /\ nn_bias s' <> l /\
  read_model s' = read_model s.
Proof.
  unfold init_params, read_model. intros H.
  destruct (lists s !! nn_weights s) as [W|] eqn:EW; [|done].
  destruct (lists s !! nn_bias s) as [B|] eqn:EB; [|done].
  cbn [mbind option_bind] in H.
  destruct (W !! 0) as [w0|]; [|done]. destruct (W !! 1) as [w1|]; [|done].
  destruct (B !! 0) as [b0|]; [|done]. destruct (B !! 1) as [b1|]; [|done].
  cbn [mbind option_bind alloc] in H. injection H as <- <-.
  cbn [lists nn_weights nn_bias].
  pose proof (lookup_lt_Some _ _ _ EW). pose proof (lookup_lt_Some _ _ _ EB).
  rewrite !lookup_app_l by done. rewrite EW, EB.
  repeat split; lia.
Qed.

(** The loops on small inputs. *)
Example choice_example :
  @jr.choice nat example_prng 0 (np.arange 5) 3 = Some [4; 3; 2].
Proof. reflexivity. Qed.

Example choice_too_many :
  @jr.choice nat example_prng 0 (np.arange 5) 6 = None.
Proof. reflexivity. Qed.

Example grouping_example :
  NeuralODE.x_train_grouped
    [10; 11; 12; 13; 14; 15; 16; 17; 18; 19; 20]
    [0; 1; 2; 3; 4; 5; 6; 7; 8; 9; 0]
  = Some [[10]; [11]; [12]; [13]; [14]; [15]; [16]; [17]; [18]; [19]].
Proof. reflexivity. Qed.

Example confusion_example :
  Eqx.confusion_matrix [1; 0; 1] [1; 1; 1]
  = [[0; 0 + 1; 0; 0; 0; 0; 0; 0; 0; 0];
     [0; 0 + 1 + 1; 0; 0; 0; 0; 0; 0; 0; 0];
     [0; 0; 0; 0; 0; 0; 0; 0; 0; 0]; [0; 0; 0; 0; 0; 0; 0; 0; 0; 0];
     [0; 0; 0; 0; 0; 0; 0; 0; 0; 0]; [0; 0; 0; 0; 0; 0; 0; 0; 0; 0];
     [0; 0; 0; 0; 0; 0; 0; 0; 0; 0]; [0; 0; 0; 0; 0; 0; 0; 0; 0; 0];
     [0; 0; 0; 0; 0; 0; 0; 0; 0; 0]; [0; 0; 0; 0; 0; 0; 0; 0; 0; 0]]%R.
Proof. reflexivity. Qed.

End ExampleFacts.

(** C2.  The classifier's output is the softmax of its ten logits, each
    entry [exp(h_i)] over the sum of the exponentials of all of them, and
    that is a probability vector of length ten: no entry is below zero and
    the entries sum to one.  Stated for the network of the Equinox
    notebook and for the hand-written one of the from-scratch notebook. *)
Theorem classifier_output_is_probability_vector
    (nn : Eqx.SimpleNetwork) (nn' : Scratch.SimpleNetwork)
    (hidden_size : nat) (x : vector) :
  Eqx.well_shaped nn (length x) hidden_size 10 ->
  Scratch.well_shaped nn' (length x) hidden_size 10 ->
  (exists h p, length h = 10 /\
     p = np.divide (np.exp h) (np.sum (np.exp h)) /\
     Eqx.call nn x = Some p /\
     length p = 10 /\ Forall (fun t => (0 <= t)%R) p /\ np.sum p = 1%R) /\
  (exists h p, length h = 10 /\
     p = np.divide (np.exp h) (np.sum (np.exp h)) /\
     Scratch.call nn' x = Some p /\
     length p = 10 /\ Forall (fun t => (0 <= t)%R) p /\ np.sum p = 1%R).
Proof.
  intros He Hs.
  assert (Hsoft : forall h : vector, length h = 10 ->
            length (Scratch.softmax_activation h) = 10 /\
            probability_vector (Scratch.softmax_activation h)).
  { intros h Hh. rewrite length_softmax. split; [done|].
    apply softmax_probability_vector. by destruct h. }
  split.
  - destruct (eqx_call_softmax _ _ _ _ He) as (h & Hh & Hc).
    destruct (Hsoft h Hh) as (Hl & Hnn & Hsum).
    exists h, (Scratch.softmax_activation h). done.
  - destruct (scratch_call_softmax _ _ _ _ Hs) as (h & Hh & Hc).
    destruct (Hsoft h Hh) as (Hl & Hnn & Hsum).
    exists h, (Scratch.softmax_activation h). done.
Qed.

(** The small instance, at a blank image. *)
Lemma classifier_output_is_probability_vector_witness :
  (exists h p, length h = 10 /\
     p = np.divide (np.exp h) (np.sum (np.exp h)) /\
     Eqx.call example_network (replicate 784 0%R) = Some p /\
     length p = 10 /\ Forall (fun t => (0 <= t)%R) p /\ np.sum p = 1%R) /\
  (exists h p, length h = 10 /\
     p = np.divide (np.exp h) (np.sum (np.exp h)) /\
     Scratch.call example_scratch_network (replicate 784 0%R) = Some p /\
     length p = 10 /\ Forall (fun t => (0 <= t)%R) p /\ np.sum p = 1%R).
Proof.
  apply (classifier_output_is_probability_vector
           example_network example_scratch_network 1 (replicate 784 0%R)).
  - rewrite example_x_row. apply example_network_shaped.
  - rewrite example_x_row. apply example_scratch_network_shaped.
Defined.

(** ** The classification loss *)
Section CrossEntropy.
Local Open Scope R_scope.
Import Scratch.

Lemma sum_upto_ext n f g :
  (forall i, (i < n)%nat -> f i = g i) -> sum_upto n f = sum_upto n g.
Proof.
  induction n as [|n IH]; intros H; [done|]. cbn [sum_upto].
  rewrite IH by (intros; apply H; lia). rewrite H by lia. done.
Qed.

Lemma sum_by_index (v : list R) :
  np.sum v = sum_upto (length v) (fun i => v !!! i).
Proof.
  induction v as [|x v IH] using rev_ind; [done|].
  rewrite sum_app, length_app, Nat.add_1_r. cbn [sum_upto length].
  rewrite sum_cons, sum_nil, IH. f_equal.
  - apply sum_upto_ext. intros i Hi. by rewrite lookup_total_app_l.
  - rewrite lookup_total_app_r by lia. rewrite Nat.sub_diag. cbn. lra.
Qed.

Lemma length_concat_shape (a : list (list R)) rows cols :
  has_shape a rows cols -> length (concat a) = (rows * cols)%nat.
Proof.
  intros [<- H]. induction H as [|r a Hr _ IH]; [done|].
  cbn [concat length]. rewrite length_app, IH, Hr. lia.
Qed.

Lemma shape_row (a : list (list R)) rows cols b :
  has_shape a rows cols -> (b < rows)%nat -> length (a !!! b) = cols.
Proof.
  intros [<- H] Hb.
  apply (Forall_lookup_1 (fun r => length r = cols) a b (a !!! b) H).
  by apply list_lookup_lookup_total_lt.
Qed.

Lemma sum_matrix_by_index (a : list (list R)) rows cols :
  has_shape a rows cols ->
  np.sum (concat a) = sum_upto rows (fun b => sum_upto cols (entry a b)).
Proof.
  intros Ha. pose proof Ha as [<- H].
  rewrite sum_concat, sum_by_index, length_fmap.
  apply sum_upto_ext. intros b Hb.
  rewrite (list_lookup_total_fmap np.sum a b) by done.
  rewrite sum_by_index, (shape_row a _ cols b Ha Hb). done.
Qed.

Lemma has_shape_same (a b : list (list R)) rows cols :
  has_shape a rows cols -> has_shape b rows cols -> same_shape (Mat a) (Mat b).
Proof.
  intros [La Ha] [Lb Hb]. simpl. apply Forall2_same_length_lookup_2; [lia|].
  intros i r r' Hr Hr'.
  pose proof (Forall_lookup_1 (fun r => length r = cols) a i r Ha Hr).
  pose proof (Forall_lookup_1 (fun r => length r = cols) b i r' Hb Hr').
  simpl in *. congruence.
Qed.

Lemma has_shape_log (a : list (list R)) rows cols :
  has_shape a rows cols -> has_shape (np.log a) rows cols.
Proof.
  intros [La Ha]. split; unfold np.log.
  - by rewrite length_map.
  - apply Forall_fmap. eapply Forall_impl; [exact Ha|].
    intros r Hr. simpl. by rewrite length_map.
Qed.

Lemma entry_log (a : list (list R)) rows cols b c :
  has_shape a rows cols -> (b < rows)%nat -> (c < cols)%nat ->
  entry (np.log a) b c = ln (entry a b c).
Proof.
  intros Ha Hb Hc. pose proof (shape_row a rows cols b Ha Hb) as Hlen.
  destruct Ha as [La Ha]. unfold entry, np.log.
  rewrite (list_lookup_total_fmap (map ln) a b) by lia.
  rewrite (list_lookup_total_fmap ln (a !!! b) c); [done|]. lia.
Qed.

Lemma multiply_shape (y q : list (list R)) rows cols :
  has_shape y rows cols -> has_shape q rows cols ->
  exists m, np.multiply y q = Some m /\ has_shape m rows cols /\
    forall b c, (b < rows)%nat -> (c < cols)%nat ->
      entry m b c = entry y b c * entry q b c.
Proof.
  intros Hy Hq. pose proof (has_shape_same _ _ _ _ Hy Hq) as Hs.
  unfold np.multiply. rewrite decide_True by done.
  destruct Hy as [Ly Hy], Hq as [Lq Hq].
  eexists. split; [done|]. split; [split|].
  - rewrite length_zip_with. lia.
  - apply Forall_forall. intros r Hr.
    apply elem_of_lookup_zip_with in Hr as (i & u & v & -> & Hu & Hv).
    rewrite length_zip_with.
    pose proof (Forall_lookup_1 (fun r => length r = cols) y i u Hy Hu).
    pose proof (Forall_lookup_1 (fun r => length r = cols) q i v Hq Hv).
    simpl in *. lia.
  - intros b c Hb Hc. unfold entry.
    assert (Hyb : y !! b = Some (y !!! b))
      by (apply list_lookup_lookup_total_lt; lia).
    assert (Hqb : q !! b = Some (q !!! b))
      by (apply list_lookup_lookup_total_lt; lia).
    pose proof (Forall_lookup_1 (fun r => length r = cols) y b _ Hy Hyb) as Lyb.
    pose proof (Forall_lookup_1 (fun r => length r = cols) q b _ Hq Hqb) as Lqb.
    simpl in Lyb, Lqb.
    erewrite (list_lookup_total_correct (zip_with _ y q) b); last first.
    { rewrite lookup_zip_with, Hyb. cbn. rewrite Hqb. cbn. done. }
    apply list_lookup_total_correct.
    rewrite lookup_zip_with.
    rewrite (list_lookup_lookup_total_lt (y !!! b) c) by lia. cbn.
    rewrite (list_lookup_lookup_total_lt (q !!! b) c) by lia. done.
Qed.

Lemma vmap_shape (f : list R -> option (list R)) (x : list (list R)) n :
  Forall (fun xi => softmax_of_logits f xi n) x ->
  exists q, jax.vmap f x = Some q /\ has_shape q (length x) n.
Proof.
  induction 1 as [|xi x (h & Hh & Hf) _ (q & Hq & Lq & Sq)].
  - exists []. repeat split; constructor.
  - exists (softmax_activation h :: q). unfold jax.vmap in *.
    cbn [mapM]. rewrite Hf, Hq. cbn. split; [done|]. split.
    + cbn. by rewrite Lq.
    + constructor; [|done]. by rewrite length_softmax.
Qed.

(** The value of the loss for any model that returns ten softmax entries
    for every row of the batch. *)
Lemma loss_value (model : list R -> option (list R)) (x y : list (list R)) B :
  (0 < B)%nat -> length x = B -> has_shape y B 10 ->
  Forall (fun xi => softmax_of_logits model xi 10) x ->
  exists y_predicted,
    jax.vmap model x = Some y_predicted /\
    has_shape y_predicted B 10 /\
    Eqx.loss model x y
      = Some (- (1 / (INR B * 10)) * batch_class_sum B y y_predicted).
Proof.
  intros HB Lx Hy Hm.
  destruct (vmap_shape model x 10 Hm) as (q & Hq & Sq). rewrite Lx in Sq.
  exists q. split; [done|]. split; [done|].
  destruct (multiply_shape y (np.log q) B 10 Hy (has_shape_log _ _ _ Sq))
    as (m & Hmul & Sm & Em).
  unfold Eqx.loss. rewrite Hq. cbn [mbind option_bind]. rewrite Hmul.
  cbn [mbind option_bind]. f_equal. unfold np.mean.
  rewrite (length_concat_shape m B 10 Sm), (sum_matrix_by_index m B 10 Sm).
  rewrite mult_INR.
  assert (HBR : 0 < INR B) by (apply lt_0_INR; lia).
  replace (INR 10) with 10 by (simpl; lra).
  unfold batch_class_sum.
  rewrite (sum_upto_ext B _ (fun b => sum_upto 10 (fun c =>
             entry y b c * ln (entry q b c)))).
  { field. lra. }
  intros b Hb. apply sum_upto_ext. intros c Hc.
  rewrite Em by done. by rewrite (entry_log q B 10).
Qed.

End CrossEntropy.

(** ** The from-scratch [loss] in the store *)
Section ScratchLoss.
Local Open Scope R_scope.
Import Scratch.

Lemma read_model_after_loss s p0 p1 p2 p3 :
  read_model (after_loss s p0 p1 p2 p3)
    = Some {| weights := [p0; p1]; bias := [p2; p3] |}.
Proof.
  unfold read_model, after_loss. cbn [lists nn_weights nn_bias].
  assert (H1 : (lists s ++ [[p0; p1]; [p2; p3]]) !! length (lists s)
               = Some [p0; p1]) by (by apply list_lookup_middle).
  assert (H2 : (lists s ++ [[p0; p1]; [p2; p3]]) !! S (length (lists s))
               = Some [p2; p3]).
  { rewrite lookup_app_r by lia.
    replace (S (length (lists s)) - length (lists s))%nat with 1%nat by lia.
    done. }
  rewrite H1, H2. done.
Qed.

(** [loss] binds the network's attributes to the entries of the list it is
    given and is, in value, the loss of the network so rebuilt. *)
Lemma loss_body_eq l x y s p0 p1 p2 p3 rest :
  lists s !! l = Some (p0 :: p1 :: p2 :: p3 :: rest) ->
  loss_body l x y s =
    v ← Eqx.loss (call {| weights := [p0; p1]; bias := [p2; p3] |}) x y;
    Some (v, after_loss s p0 p1 p2 p3).
Proof.
  intros H. unfold loss_body. rewrite H.
  cbn [mbind option_bind lookup list_lookup alloc lists nn_weights nn_bias].
  assert (Hs : {| lists := (lists s ++ [[p0; p1]]) ++ [[p2; p3]];
                  nn_weights := length (lists s);
                  nn_bias := length (lists s ++ [[p0; p1]]) |}
               = after_loss s p0 p1 p2 p3).
  { unfold after_loss. rewrite <- app_assoc, length_app, Nat.add_1_r. done. }
  rewrite Hs, read_model_after_loss. cbn [mbind option_bind].
  unfold Eqx.loss.
  destruct (jax.vmap _ x) as [q|]; [|done]. cbn [mbind option_bind].
  destruct (np.multiply y (np.log q)); done.
Qed.

Lemma params_shaped_network P input_size hidden_size output_size :
  params_shaped P input_size hidden_size output_size ->
  exists p0 p1 p2 p3,
    P = [p0; p1; p2; p3] /\
    well_shaped {| weights := [p0; p1]; bias := [p2; p3] |}
      input_size hidden_size output_size.
Proof.
  intros (w0 & w1 & b0 & b1 & -> & H).
  exists (Mat w0), (Mat w1), (Vec b0), (Vec b1). split; [done|].
  split; [|done]. exists w0, w1, b0, b1. done.
Qed.

End ScratchLoss.

(** C1.  For a batch [x] of shape [B, 784] and targets [y] of shape
    [B, 10], the loss is the negated mean of [y * log(prediction)] over
    both axes: minus the sum over all batch and class entries, divided by
    [B * 10].  It is therefore not the sum divided by [B] alone, unless the
    sum is zero.  Stated for the loss of the Equinox notebook and for the
    one of the from-scratch notebook, run in a store that holds the
    parameter list [P] at [model_params]. *)
Theorem loss_is_mean_over_batch_and_classes
    (nn : Eqx.SimpleNetwork) (hidden_size B : nat) (x y : matrix)
    (s : Scratch.store) (model_params : Scratch.loc) (P : list array) :
  (0 < B)%nat ->
  Scratch.has_shape x B 784 -> Scratch.has_shape y B 10 ->
  Eqx.well_shaped nn 784 hidden_size 10 ->
  Scratch.lists s !! model_params = Some P ->
  Scratch.params_shaped P 784 hidden_size 10 ->
  (exists y_predicted v,
     jax.vmap (Eqx.call nn) x = Some y_predicted /\
     Eqx.loss (Eqx.call nn) x y = Some v /\
     v = (- (1 / (INR B * 10)) * batch_class_sum B y y_predicted)%R /\
     (batch_class_sum B y y_predicted <> 0%R ->
      v <> (- (1 / INR B) * batch_class_sum B y y_predicted)%R)) /\
  (exists y_predicted v s',
     jax.vmap (Scratch.call {| Scratch.weights := take 2 P;
                               Scratch.bias := drop 2 P |}) x
       = Some y_predicted /\
     Scratch.loss_body model_params x y s = Some (v, s') /\
     v = (- (1 / (INR B * 10)) * batch_class_sum B y y_predicted)%R /\
     (batch_class_sum B y y_predicted <> 0%R ->
      v <> (- (1 / INR B) * batch_class_sum B y y_predicted)%R)).
Proof.
  intros HB Hx Hy Hnn HP HPs.
  assert (HBR : (0 < INR B)%R) by (apply lt_0_INR; lia).
  assert (Hne : forall S : R, S <> 0%R ->
            (- (1 / (INR B * 10)) * S)%R <> (- (1 / INR B) * S)%R).
  { intros S HS Heq. apply HS.
    assert (E : (1 / (INR B * 10) = 1 / INR B / 10)%R) by (field; lra).
    rewrite E in Heq.
    assert (Ha : (0 < 1 / INR B)%R) by (apply Rdiv_lt_0_compat; lra).
    nra. }
  destruct Hx as [Lx Rx]. split.
  - destruct (loss_value (Eqx.call nn) x y B HB Lx Hy) as (q & Hq & _ & Hl).
    { eapply Forall_impl; [exact Rx|]. intros xi Hxi. simpl in Hxi.
      apply (eqx_call_softmax nn xi hidden_size 10). by rewrite Hxi. }
    eauto 10.
  - destruct (params_shaped_network _ _ _ _ HPs) as (p0 & p1 & p2 & p3 & -> & Hw).
    cbn [take drop].
    destruct (loss_value (Scratch.call {| Scratch.weights := [p0; p1];
                                          Scratch.bias := [p2; p3] |})
                x y B HB Lx Hy) as (q & Hq & _ & Hl).
    { eapply Forall_impl; [exact Rx|]. intros xi Hxi. simpl in Hxi.
      apply (scratch_call_softmax _ xi hidden_size 10). by rewrite Hxi. }
    exists q. eexists. eexists. split; [done|]. split.
    { rewrite (loss_body_eq _ _ _ _ _ _ _ _ _ HP), Hl. done. }
    eauto.
Qed.

(** The small instance: a batch of one. *)
Lemma loss_is_mean_over_batch_and_classes_witness :
  (exists y_predicted v,
     jax.vmap (Eqx.call example_network) example_x = Some y_predicted /\
     Eqx.loss (Eqx.call example_network) example_x example_y = Some v /\
     v = (- (1 / (INR 1 * 10)) * batch_class_sum 1 example_y y_predicted)%R /\
     (batch_class_sum 1 example_y y_predicted <> 0%R ->
      v <> (- (1 / INR 1) * batch_class_sum 1 example_y y_predicted)%R)) /\
  (exists y_predicted v s',
     jax.vmap (Scratch.call {| Scratch.weights := take 2 example_params;
                               Scratch.bias := drop 2 example_params |})
       example_x = Some y_predicted /\
     Scratch.loss_body 2 example_x example_y example_store = Some (v, s') /\
     v = (- (1 / (INR 1 * 10)) * batch_class_sum 1 example_y y_predicted)%R /\
     (batch_class_sum 1 example_y y_predicted <> 0%R ->
      v <> (- (1 / INR 1) * batch_class_sum 1 example_y y_predicted)%R)).
Proof.
  apply (loss_is_mean_over_batch_and_classes
           example_network 1 1 example_x example_y example_store 2
           example_params).
  - lia.
  - apply example_x_shape.
  - apply example_y_shape.
  - apply example_network_shaped.
  - reflexivity.
  - apply example_params_shaped.
Defined.

(** ** Arg-max and one-hot rows *)
Section ArgMax.
Local Open Scope R_scope.

Lemma argmax_from_le l i best bi :
  Forall (fun x => x <= best) l -> np.argmax_from l i best bi = bi.
Proof.
  intros H. revert i. induction H as [|x l Hx _ IH]; intros i; [done|].
  cbn [np.argmax_from]. destruct (Rlt_dec best x); [lra|]. apply IH.
Qed.

Lemma argmax_from_peak pre m post i best bi :
  Forall (fun x => x < m) pre -> best < m -> Forall (fun x => x <= m) post ->
  np.argmax_from (pre ++ m :: post) i best bi = (i + length pre)%nat.
Proof.
  intros Hpre. revert i best bi.
  induction Hpre as [|x pre Hx _ IH]; intros i best bi Hb Hpost.
  - cbn [app np.argmax_from length]. destruct (Rlt_dec best m); [|lra].
    rewrite argmax_from_le by done. lia.
  - cbn [app np.argmax_from length]. destruct (Rlt_dec best x).
    + rewrite IH by done. lia.
    + rewrite IH by done. lia.
Qed.

Lemma argmax_peak pre m post :
  Forall (fun x => x < m) pre -> Forall (fun x => x <= m) post ->
  np.argmax (pre ++ m :: post) = Some (length pre).
Proof.
  intros Hpre Hpost. destruct pre as [|x pre].
  - cbn [app np.argmax length]. by rewrite argmax_from_le.
  - apply Forall_cons in Hpre as [Hx Hpre]. cbn [app np.argmax length].
    by rewrite argmax_from_peak.
Qed.

Lemma argmax_from_bound l i best bi :
  (bi < i)%nat -> (np.argmax_from l i best bi < i + length l)%nat.
Proof.
  revert i best bi. induction l as [|x l IH]; intros i best bi H.
  - cbn. lia.
  - cbn [np.argmax_from length]. destruct (Rlt_dec best x).
    + specialize (IH (S i) x i). lia.
    + specialize (IH (S i) best bi). lia.
Qed.

(** The arg-max of a non-empty row is one of its indices. *)
Lemma argmax_Some_lt (l : list R) :
  l <> [] -> exists j, np.argmax l = Some j /\ (j < length l)%nat.
Proof.
  destruct l as [|x l]; [done|]. intros _. eexists. split; [done|].
  pose proof (argmax_from_bound l 1 x 0). cbn [length]. lia.
Qed.

Lemma one_hot_split L n :
  (L < n)%nat ->
  jax.one_hot L n
  = ((fun j : nat => if decide (j = L) then 1 else 0) <$> seq 0 L)
    ++ 1 :: ((fun j : nat => if decide (j = L) then 1 else 0)
               <$> seq (S L) (n - S L)).
Proof.
  intros H. unfold jax.one_hot, np.arange.
  replace n with (L + S (n - S L))%nat at 1 by lia.
  rewrite seq_app. cbn [seq]. rewrite map_app. cbn [map].
  rewrite decide_True by done. done.
Qed.

Lemma one_hot_lookup L n j :
  (j < n)%nat -> jax.one_hot L n !! j = Some (if decide (j = L) then 1 else 0).
Proof.
  intros H. unfold jax.one_hot, np.arange.
  change (map ?f ?l) with (f <$> l).
  rewrite list_lookup_fmap, lookup_seq_lt by done. done.
Qed.

Lemma one_hot_argmax L n : (L < n)%nat -> np.argmax (jax.one_hot L n) = Some L.
Proof.
  intros H. rewrite one_hot_split by done. rewrite argmax_peak.
  - by rewrite length_fmap, length_seq.
  - apply Forall_fmap, Forall_forall. intros j Hj.
    apply elem_of_seq in Hj. simpl. rewrite decide_False by lia. lra.
  - apply Forall_fmap, Forall_forall. intros j Hj. simpl.
    destruct (decide (j = L)); lra.
Qed.

End ArgMax.

(** C6.  For a label [L] in [0, 9], the one-hot row of [L] has ten
    entries, a one at index [L] and nowhere else, zeros at all the other
    indices, and its arg-max is [L]: encoding then decoding is the
    identity on [0, 9]. *)
Theorem one_hot_then_argmax_is_identity (L : nat) :
  L <= 9 ->
  length (jax.one_hot L 10) = 10 /\
  jax.one_hot L 10 !! L = Some 1%R /\
  (forall j, j < 10 -> j <> L -> jax.one_hot L 10 !! j = Some 0%R) /\
  (forall j, jax.one_hot L 10 !! j = Some 1%R -> j = L) /\
  np.argmax (jax.one_hot L 10) = Some L.
Proof.
  intros HL. split; [|split; [|split; [|split]]].
  - unfold jax.one_hot, np.arange. by rewrite length_map, length_seq.
  - rewrite one_hot_lookup by lia. by rewrite decide_True.
  - intros j Hj Hne. rewrite one_hot_lookup by lia. by rewrite decide_False.
  - intros j Hj.
    assert (Hlt : j < 10).
    { apply lookup_lt_Some in Hj. unfold jax.one_hot, np.arange in Hj.
      by rewrite length_map, length_seq in Hj. }
    rewrite one_hot_lookup in Hj by lia.
    destruct (decide (j = L)); [done|]. injection Hj as Hj. lra.
  - apply one_hot_argmax. lia.
Qed.

(** A label of the data set, encoded and decoded. *)
Lemma one_hot_then_argmax_is_identity_witness :
  length (jax.one_hot 3 10) = 10 /\
  jax.one_hot 3 10 !! 3 = Some 1%R /\
  (forall j, j < 10 -> j <> 3 -> jax.one_hot 3 10 !! j = Some 0%R) /\
  (forall j, jax.one_hot 3 10 !! j = Some 1%R -> j = 3) /\
  np.argmax (jax.one_hot 3 10) = Some 3.
Proof. apply (one_hot_then_argmax_is_identity 3). lia. Defined.

(** ** The evaluation cell *)
Section Evaluation.
Local Open Scope R_scope.
Import Scratch.

Lemma zeros_shape r c : has_shape (np.zeros r c) r c.
Proof.
  unfold np.zeros. split; [by rewrite length_replicate|].
  apply Forall_replicate. by rewrite length_replicate.
Qed.

Lemma entry_zeros r c i j : (i < r)%nat -> (j < c)%nat -> entry (np.zeros r c) i j = 0.
Proof.
  intros Hi Hj. unfold entry, np.zeros.
  rewrite lookup_total_replicate_2 by done.
  by rewrite lookup_total_replicate_2.
Qed.

Lemma item_in_range (l : list nat) i : (i < length l)%nat -> np.item l i = l !!! i.
Proof. intros H. unfold np.item. f_equal. lia. Qed.

Lemma item2_in_range (a : list (list R)) rows cols r c :
  has_shape a rows cols -> (r < rows)%nat -> (c < cols)%nat ->
  np.item2 a r c = entry a r c.
Proof.
  intros Ha Hr Hc. pose proof (shape_row a rows cols r Ha Hr) as Hl.
  destruct Ha as [La Ha]. unfold np.item2, entry.
  replace (r `min` (length a - 1))%nat with r by lia.
  rewrite Hl. f_equal. lia.
Qed.

Lemma at_set_in_range (a : list (list R)) rows cols r c v :
  has_shape a rows cols -> (r < rows)%nat ->
  np.at_set a r c v = <[r := <[c := v]> (a !!! r)]> a.
Proof.
  intros [La Ha] Hr. unfold np.at_set.
  rewrite (list_lookup_lookup_total_lt a r) by lia. done.
Qed.

Lemma at_set_shape (a : list (list R)) rows cols r c v :
  has_shape a rows cols -> has_shape (np.at_set a r c v) rows cols.
Proof.
  intros [La Ha]. unfold np.at_set. destruct (a !! r) as [row|] eqn:E; [|done].
  split; [by rewrite length_insert|].
  apply Forall_insert; [done|]. rewrite length_insert.
  apply (Forall_lookup_1 (fun r => length r = cols) a r row Ha E).
Qed.

(** What one turn of the loop does to the entries, the row sums and the
    total, when its index pair is inside the matrix. *)
Lemma increment_effect (a : list (list R)) rows cols t p :
  has_shape a rows cols -> (t < rows)%nat -> (p < cols)%nat ->
  let a' := np.at_set a t p (np.item2 a t p + 1) in
  (forall r c, (r < rows)%nat -> (c < cols)%nat ->
     entry a' r c = entry a r c + (if decide (r = t /\ c = p) then 1 else 0)) /\
  (forall r, (r < rows)%nat ->
     np.sum (a' !!! r) = np.sum (a !!! r) + (if decide (r = t) then 1 else 0)) /\
  np.sum (concat a') = np.sum (concat a) + 1.
Proof.
  intros Ha Ht Hp. cbn zeta.
  rewrite (item2_in_range a rows cols t p Ha Ht Hp).
  rewrite (at_set_in_range a rows cols t p _ Ha Ht).
  pose proof (shape_row a rows cols t Ha Ht) as Hlt.
  destruct Ha as [La Ha].
  assert (Hrow : (a !!! t) !! p = Some (entry a t p)).
  { unfold entry. apply list_lookup_lookup_total_lt. lia. }
  assert (Hsum : np.sum (<[p := entry a t p + 1]> (a !!! t))
                 = np.sum (a !!! t) + 1).
  { rewrite (sum_insert _ _ _ _ Hrow). lra. }
  split; [|split].
  - intros r c Hr Hc. unfold entry at 1. destruct (decide (r = t)) as [->|Hne].
    + rewrite list_lookup_total_insert_eq by lia.
      destruct (decide (c = p)) as [->|Hnc].
      * rewrite list_lookup_total_insert_eq by lia.
        rewrite decide_True by done. done.
      * rewrite list_lookup_total_insert_ne by done.
        rewrite decide_False by (intros [_ ?]; done). unfold entry. lra.
    + rewrite list_lookup_total_insert_ne by done.
      rewrite decide_False by (intros [? _]; done). unfold entry. lra.
  - intros r Hr. destruct (decide (r = t)) as [->|Hne].
    + rewrite list_lookup_total_insert_eq by lia. done.
    + rewrite list_lookup_total_insert_ne by done. lra.
  - rewrite !sum_concat, list_fmap_insert.
    rewrite (sum_insert _ t (np.sum (a !!! t))).
    + rewrite Hsum. lra.
    + rewrite list_lookup_fmap, (list_lookup_lookup_total_lt a t) by lia. done.
Qed.

Lemma confusion_after_S y_test predictions n :
  Eqx.confusion_after y_test predictions (S n)
  = Eqx.confusion_step y_test predictions
      (Eqx.confusion_after y_test predictions n) n.
Proof. unfold Eqx.confusion_after. by rewrite seq_S, foldl_snoc. Qed.

Lemma class_count_take_S (y : list nat) n r :
  (n < length y)%nat ->
  class_count (take (S n) y) r
  = (class_count (take n y) r + (if decide (y !!! n = r) then 1 else 0))%nat.
Proof.
  intros H. unfold class_count.
  rewrite (take_S_r y n (y !!! n)) by (by apply list_lookup_lookup_total_lt).
  rewrite filter_app, length_app. f_equal.
  destruct (decide (y !!! n = r)) as [Hd|Hd].
  - rewrite filter_cons_True by exact Hd. done.
  - rewrite filter_cons_False by exact Hd. done.
Qed.

Lemma cell_count_take_S (y p : list nat) n r c :
  (n < length y)%nat -> length p = length y ->
  cell_count (take (S n) y) (take (S n) p) r c
  = (cell_count (take n y) (take n p) r c
     + (if decide (y !!! n = r /\ p !!! n = c) then 1 else 0))%nat.
Proof.
  intros H Hl. unfold cell_count.
  rewrite (take_S_r y n (y !!! n)) by (by apply list_lookup_lookup_total_lt).
  rewrite (take_S_r p n (p !!! n))
    by (apply list_lookup_lookup_total_lt; lia).
  rewrite (zip_with_app pair) by (rewrite !length_take; lia).
  rewrite filter_app, length_app. f_equal. cbn [zip_with].
  destruct (decide (y !!! n = r /\ p !!! n = c)) as [Hd|Hd].
  - rewrite filter_cons_True by exact Hd. done.
  - rewrite filter_cons_False by exact Hd. done.
Qed.

(** The state of the matrix after [n] turns, for labels and predictions
    that all lie in [0, 9]. *)
Lemma confusion_after_spec (y_test predictions : list nat) n :
  Forall (fun t => (t < 10)%nat) y_test ->
  Forall (fun p => (p < 10)%nat) predictions ->
  length predictions = length y_test ->
  (n <= length y_test)%nat ->
  let cm := Eqx.confusion_after y_test predictions n in
  has_shape cm 10 10 /\
  (forall r c, (r < 10)%nat -> (c < 10)%nat ->
     entry cm r c = INR (cell_count (take n y_test) (take n predictions) r c)) /\
  (forall r, (r < 10)%nat ->
     np.sum (cm !!! r) = INR (class_count (take n y_test) r)) /\
  np.sum (concat cm) = INR n.
Proof.
  intros Hy Hp Hl. cbn zeta. induction n as [|n IH]; intros Hn.
  - unfold Eqx.confusion_after. cbn [seq foldl take]. split; [apply zeros_shape|].
    split; [|split].
    + intros r c Hr Hc. by rewrite entry_zeros.
    + intros r Hr. unfold np.zeros. rewrite lookup_total_replicate_2 by done.
      by rewrite sum_replicate_0.
    + rewrite sum_concat. unfold np.zeros. rewrite fmap_replicate.
      rewrite sum_replicate_0. by rewrite sum_replicate_0.
  - destruct IH as (Hs & He & Hr & Ht); [lia|].
    rewrite confusion_after_S. unfold Eqx.confusion_step.
    rewrite item_in_range by lia.
    assert (Hyn : (y_test !!! n < 10)%nat).
    { apply (Forall_lookup_1 _ _ n _ Hy). apply list_lookup_lookup_total_lt. lia. }
    assert (Hpn : (predictions !!! n < 10)%nat).
    { apply (Forall_lookup_1 _ _ n _ Hp). apply list_lookup_lookup_total_lt. lia. }
    destruct (increment_effect _ 10 10 _ _ Hs Hyn Hpn) as (He' & Hr' & Ht').
    split; [by apply at_set_shape|]. split; [|split].
    + intros r c Hr0 Hc0. rewrite He', He by done.
      rewrite cell_count_take_S by (done || lia). rewrite plus_INR.
      destruct (decide (r = y_test !!! n /\ c = predictions !!! n)) as [[-> ->]|Hne].
      * rewrite decide_True by done. simpl. lra.
      * rewrite decide_False by (intros [<- <-]; by apply Hne). simpl. lra.
    + intros r Hr0. rewrite Hr', Hr by done.
      rewrite class_count_take_S by lia. rewrite plus_INR.
      destruct (decide (r = y_test !!! n)) as [->|Hne].
      * rewrite decide_True by done. simpl. lra.
      * rewrite decide_False by (intros <-; by apply Hne). simpl. lra.
    + rewrite Ht', Ht, S_INR. done.
Qed.

(** Every prediction is the arg-max of ten entries, hence below ten. *)
Lemma predictions_in_range (f : list R -> option (list R)) (x_test_flat : list (list R)) :
  Forall (fun xi => softmax_of_logits f xi 10) x_test_flat ->
  exists predictions,
    Eqx.y_test_predictions f x_test_flat = Some predictions /\
    length predictions = length x_test_flat /\
    Forall (fun p => (p < 10)%nat) predictions.
Proof.
  intros H. destruct (vmap_shape f x_test_flat 10 H) as (q & Hq & Lq & Sq).
  unfold Eqx.y_test_predictions. rewrite Hq. cbn [mbind option_bind].
  rewrite <- Lq. clear Hq Lq H.
  induction Sq as [|row q Hrow _ (ps & Hps & Lps & Fps)].
  - exists []. done.
  - destruct (argmax_Some_lt row) as (j & Hj & Hlt); [by destruct row|].
    exists (j :: ps). cbn [mapM]. rewrite Hj, Hps. cbn.
    split; [done|]. split; [by rewrite Lps|].
    constructor; [lia|done].
Qed.

End Evaluation.

(** ** The gradient-descent update *)
Section Optimiser.
Local Open Scope R_scope.
Import Scratch.

Lemma same_shape_scale c p dm : same_shape p dm -> same_shape p (np.scale c dm).
Proof.
  destruct p as [u|m], dm as [v|n]; simpl; try done.
  - intros ->. by rewrite length_map.
  - intros H. apply Forall2_fmap_r. eapply Forall2_impl; [exact H|].
    intros r r' Hr. simpl. by rewrite length_map.
Qed.

Lemma subtract_scale c p dm :
  same_shape p dm -> np.subtract p (np.scale c dm) = Some (descent c p dm).
Proof.
  intros H. apply (same_shape_scale c) in H. unfold descent, np.subtract.
  rewrite decide_True by done.
  destruct p as [u|m], dm as [v|n]; simpl in *; done.
Qed.

Lemma minus_zero_row c (u v : list R) :
  length u = length v -> Forall (fun t => t = 0) v ->
  zip_with Rminus u (map (Rmult c) v) = u.
Proof.
  intros Hl Hz. revert u Hl. induction Hz as [|g v -> _ IH]; intros [|a u] Hl;
    try done.
  cbn [map zip_with]. rewrite IH by (simpl in Hl; lia). f_equal. lra.
Qed.

Lemma descent_zero c p dm : same_shape p dm -> all_zero dm -> descent c p dm = p.
Proof.
  intros Hs Hz. unfold descent. rewrite subtract_scale by done.
  unfold descent, np.subtract.
  rewrite decide_True by (by apply same_shape_scale).
  destruct p as [u|m], dm as [v|n]; simpl in *; try done.
  - by rewrite minus_zero_row.
  - do 2 f_equal. induction Hs as [|r r' m n Hr _ IH]; [done|].
    apply Forall_cons in Hz as [Hz0 Hz]. cbn [map zip_with].
    rewrite IH by done. by rewrite minus_zero_row.
Qed.

(** The loop, started on the entries after a prefix it has already
    rewritten. *)
Lemma optimiser_loop_from lr (pre P g : list array) :
  Forall2 same_shape P g ->
  foldl (fun acc '(i, dm) =>
           P ← acc;
           p ← P !! i;
           q ← np.subtract p (np.scale lr dm);
           Some (<[i := q]> P))
        (Some (pre ++ P)) (imap (fun i dm => ((length pre + i)%nat, dm)) g)
  = Some (pre ++ zip_with (descent lr) P g).
Proof.
  intros H. revert pre. induction H as [|p dm P g Hs _ IH]; intros pre; [done|].
  rewrite imap_cons. cbn [foldl zip_with mbind option_bind].
  rewrite Nat.add_0_r, list_lookup_middle by done. cbn [mbind option_bind].
  rewrite subtract_scale by done. cbn [mbind option_bind].
  replace (<[length pre := descent lr p dm]> (pre ++ p :: P))
    with ((pre ++ [descent lr p dm]) ++ P).
  2:{ rewrite insert_app_r_alt, Nat.sub_diag by lia. by rewrite <- app_assoc. }
  rewrite (imap_ext _ (fun i d => ((length (pre ++ [descent lr p dm]) + i)%nat, d))).
  2:{ intros i x _. unfold compose. rewrite length_app. cbn. f_equal. lia. }
  rewrite IH, <- app_assoc. done.
Qed.

(** With a gradient of the shape of the parameters the loop ends, and
    every entry has moved by [learn_rate] times its gradient. *)
Lemma optimiser_loop_spec lr (P g : list array) :
  Forall2 same_shape P g ->
  optimiser_loop P g lr = Some (zip_with (descent lr) P g).
Proof. intros H. apply (optimiser_loop_from lr [] P g H). Qed.

Lemma zip_descent_zero lr (P g : list array) :
  zero_gradient P g -> zip_with (descent lr) P g = P.
Proof.
  induction 1 as [|p dm P g [Hs Hz] _ IH]; [done|].
  cbn [zip_with]. by rewrite IH, descent_zero.
Qed.

Lemma store_insert_id (s : store) l P :
  lists s !! l = Some P ->
  {| lists := <[l := P]> (lists s);
     nn_weights := nn_weights s; nn_bias := nn_bias s |} = s.
Proof. intros H. rewrite list_insert_id by done. by destruct s. Qed.

End Optimiser.

(** C8.  The manual gradient-descent update with a gradient whose entries
    are all zero returns the parameters it was given, for every parameter
    list and every learning rate: the loop yields the same entries, and
    [optimiser] returns the same list object in an unchanged store. *)
Theorem optimiser_zero_gradient_is_identity
    (model_parameters : Scratch.loc) (params gradient : list array)
    (learn_rate : R) (s : Scratch.store) :
  Scratch.lists s !! model_parameters = Some params ->
  zero_gradient params gradient ->
  Scratch.optimiser_loop params gradient learn_rate = Some params /\
  Scratch.optimiser model_parameters gradient learn_rate s
    = Some (model_parameters, s).
Proof.
  intros Hl Hz.
  assert (Hloop : Scratch.optimiser_loop params gradient learn_rate = Some params).
  { rewrite optimiser_loop_spec.
    - by rewrite zip_descent_zero.
    - eapply Forall2_impl; [exact Hz|]. by intros p dm [Hs _]. }
  split; [done|]. unfold Scratch.optimiser. rewrite Hl. cbn [mbind option_bind].
  rewrite Hloop. cbn [mbind option_bind]. by rewrite store_insert_id.
Qed.

(** The moved parameter list of the small instance, under a zero
    gradient of its shape. *)
Lemma optimiser_zero_gradient_is_identity_witness :
  Scratch.optimiser_loop
    [Mat example_w0; Mat example_w1; Vec example_b0; Vec (replicate 10 1%R)]
    example_params (1 / 10)%R
  = Some [Mat example_w0; Mat example_w1; Vec example_b0;
          Vec (replicate 10 1%R)] /\
  Scratch.optimiser 2 example_params (1 / 10)%R example_store_updated
  = Some (2, example_store_updated).
Proof.
  apply (optimiser_zero_gradient_is_identity 2
           [Mat example_w0; Mat example_w1; Vec example_b0;
            Vec (replicate 10 1%R)]
           example_params (1 / 10)%R example_store_updated).
  - reflexivity.
  - repeat constructor.
Defined.

(** ** One turn of the from-scratch training loop *)
Section TrainStep.
Local Open Scope R_scope.
Import Scratch.

Lemma loss_is_Some (model : list R -> option (list R)) (x y : list (list R)) B n :
  length x = B -> has_shape y B n ->
  Forall (fun xi => softmax_of_logits model xi n) x ->
  is_Some (Eqx.loss model x y).
Proof.
  intros Lx Hy Hm.
  destruct (vmap_shape model x n Hm) as (q & Hq & Sq). rewrite Lx in Sq.
  destruct (multiply_shape y (np.log q) B n Hy (has_shape_log _ _ _ Sq))
    as (m & Hmul & _).
  unfold Eqx.loss. rewrite Hq. cbn [mbind option_bind]. rewrite Hmul. done.
Qed.

(** The optimiser rewrites the list it is given and leaves every other
    list, and the two attributes of the network, as they were. *)
Lemma optimiser_frame l g lr s l' s' :
  optimiser l g lr s = Some (l', s') ->
  l' = l /\ nn_weights s' = nn_weights s /\ nn_bias s' = nn_bias s /\
  forall k, k <> l -> lists s' !! k = lists s !! k.
Proof.
  unfold optimiser. intros H.
  destruct (lists s !! l) as [P|]; [|done]. cbn [mbind option_bind] in H.
  destruct (optimiser_loop P g lr) as [P'|]; [|done].
  cbn [mbind option_bind] in H. injection H as <- <-.
  cbn [lists nn_weights nn_bias]. repeat split.
  intros k Hk. by rewrite list_lookup_insert_ne.
Qed.

(** [loss] runs on a parameter list of the network's shapes, and leaves
    the store of [after_loss]. *)
Lemma loss_runs grad s l p0 p1 p2 p3 (x y : list (list R))
    input_size hidden_size output_size B :
  lists s !! l = Some [p0; p1; p2; p3] ->
  well_shaped {| weights := [p0; p1]; bias := [p2; p3] |}
    input_size hidden_size output_size ->
  has_shape x B input_size -> has_shape y B output_size ->
  exists v,
    loss grad l x y s
    = Some ((v, grad [p0; p1; p2; p3] x y), after_loss s p0 p1 p2 p3).
Proof.
  intros HP Hw [Lx Rx] Hy.
  destruct (loss_is_Some (call {| weights := [p0; p1]; bias := [p2; p3] |})
              x y B output_size Lx Hy) as [v Hv].
  { eapply Forall_impl; [exact Rx|]. intros xi Hxi. simpl in Hxi.
    apply (scratch_call_softmax _ xi hidden_size output_size). by rewrite Hxi. }
  exists v. unfold loss. rewrite HP. cbn [mbind option_bind].
  rewrite (loss_body_eq _ _ _ _ _ _ _ _ _ HP), Hv. done.
Qed.

End TrainStep.

(** C3, as the code has it.  In one turn of the from-scratch training
    loop, run on a parameter list [P] of the network's shapes and a
    gradient that mirrors it: the loss-and-gradient computation leaves
    every list that existed unchanged, the parameter list included, but
    binds the two attributes of the network to two new list objects of
    two entries each, neither of which is the parameter list; the
    optimiser's update then rewrites the parameter list in place, which
    no attribute of the network refers to, and leaves the attributes and
    the lists behind them as the loss left them.  Nothing is said of what
    the two new lists hold. *)
Theorem train_step_touches_fields_in_loss_and_params_in_optimiser
    (grad : list array -> matrix -> matrix -> list array)
    (s : Scratch.store) (nn_params : Scratch.loc) (P : list array)
    (x y : matrix) (input_size hidden_size output_size B : nat) :
  Scratch.lists s !! nn_params = Some P ->
  Scratch.params_shaped P input_size hidden_size output_size ->
  Scratch.has_shape x B input_size -> Scratch.has_shape y B output_size ->
  Forall2 same_shape P (grad P x y) ->
  exists v s1 s2,
    Scratch.loss grad nn_params x y s = Some ((v, grad P x y), s1) /\
    Scratch.optimiser nn_params (grad P x y) (1 / 10)%R s1
      = Some (nn_params, s2) /\
    Scratch.train_step grad nn_params x y s = Some (v, nn_params, s2) /\
    (forall l, l < length (Scratch.lists s) ->
       Scratch.lists s1 !! l = Scratch.lists s !! l) /\
    length (Scratch.lists s) <= Scratch.nn_weights s1 /\
    length (Scratch.lists s) <= Scratch.nn_bias s1 /\
    length <$> Scratch.lists s1 !! Scratch.nn_weights s1 = Some 2 /\
    length <$> Scratch.lists s1 !! Scratch.nn_bias s1 = Some 2 /\
    Scratch.nn_weights s1 <> Scratch.nn_bias s1 /\
    Scratch.nn_weights s1 <> nn_params /\
    Scratch.nn_bias s1 <> nn_params /\
    Scratch.nn_weights s2 = Scratch.nn_weights s1 /\
    Scratch.nn_bias s2 = Scratch.nn_bias s1 /\
    Scratch.read_model s2 = Scratch.read_model s1 /\
    (forall l, l <> nn_params ->
       Scratch.lists s2 !! l = Scratch.lists s1 !! l) /\
    Scratch.lists s2 !! nn_params
      = Some (zip_with (descent (1 / 10)%R) P (grad P x y)).
Proof.
  intros HP HPs Hx Hy Hg.
  pose proof (lookup_lt_Some _ _ _ HP) as Hlt.
  destruct (params_shaped_network _ _ _ _ HPs) as (p0 & p1 & p2 & p3 & EP & Hw).
  assert (HP' : Scratch.lists s !! nn_params = Some [p0; p1; p2; p3])
    by (by rewrite <- EP).
  destruct (loss_runs grad s nn_params p0 p1 p2 p3 x y _ _ _ _ HP' Hw Hx Hy)
    as [v Hloss].
  rewrite <- EP in Hloss.
  set (s1 := after_loss s p0 p1 p2 p3) in *.
  set (g := grad P x y) in *.
  set (P1 := zip_with (descent (1 / 10)%R) P g).
  set (s2 := {| Scratch.lists := <[nn_params := P1]> (Scratch.lists s1);
                Scratch.nn_weights := Scratch.nn_weights s1;
                Scratch.nn_bias := Scratch.nn_bias s1 |}).
  assert (Hs1 : forall l, l < length (Scratch.lists s) ->
            Scratch.lists s1 !! l = Scratch.lists s !! l).
  { intros l Hl. unfold s1, after_loss. cbn [Scratch.lists].
    by rewrite lookup_app_l. }
  assert (Hopt : Scratch.optimiser nn_params g (1 / 10)%R s1
                 = Some (nn_params, s2)).
  { unfold Scratch.optimiser. rewrite Hs1, HP by done.
    cbn [mbind option_bind]. rewrite optimiser_loop_spec by done. done. }
  exists v, s1, s2. split; [done|]. split; [done|]. split.
  { unfold Scratch.train_step. rewrite Hloss. cbn [mbind option_bind].
    rewrite Hopt. done. }
  split; [done|].
  unfold s2, s1, after_loss, Scratch.read_model.
  cbn [Scratch.nn_weights Scratch.nn_bias Scratch.lists].
  split; [lia|]. split; [lia|].
  split; [by rewrite list_lookup_middle|].
  split.
  { rewrite lookup_app_r by lia.
    replace (S (length (Scratch.lists s)) - length (Scratch.lists s))
      with 1 by lia.
    done. }
  split; [lia|]. split; [lia|]. split; [lia|]. split; [done|]. split; [done|].
  split.
  { rewrite !list_lookup_insert_ne by lia. done. }
  split.
  { intros l Hl. by rewrite list_lookup_insert_ne. }
  apply list_lookup_insert_eq. rewrite length_app. lia.
Qed.

(** The first turn of the loop on the small instance. *)
Lemma train_step_touches_fields_in_loss_and_params_in_optimiser_witness :
  exists v s1 s2,
    Scratch.loss example_grad 2 example_x example_y example_store
      = Some ((v, example_grad example_params example_x example_y), s1) /\
    Scratch.optimiser 2 (example_grad example_params example_x example_y)
      (1 / 10)%R s1 = Some (2, s2) /\
    Scratch.train_step example_grad 2 example_x example_y example_store
      = Some (v, 2, s2) /\
    (forall l, l < length (Scratch.lists example_store) ->
       Scratch.lists s1 !! l = Scratch.lists example_store !! l) /\
    length (Scratch.lists example_store) <= Scratch.nn_weights s1 /\
    length (Scratch.lists example_store) <= Scratch.nn_bias s1 /\
    length <$> Scratch.lists s1 !! Scratch.nn_weights s1 = Some 2 /\
    length <$> Scratch.lists s1 !! Scratch.nn_bias s1 = Some 2 /\
    Scratch.nn_weights s1 <> Scratch.nn_bias s1 /\
    Scratch.nn_weights s1 <> 2 /\
    Scratch.nn_bias s1 <> 2 /\
    Scratch.nn_weights s2 = Scratch.nn_weights s1 /\
    Scratch.nn_bias s2 = Scratch.nn_bias s1 /\
    Scratch.read_model s2 = Scratch.read_model s1 /\
    (forall l, l <> 2 -> Scratch.lists s2 !! l = Scratch.lists s1 !! l) /\
    Scratch.lists s2 !! 2
      = Some (zip_with (descent (1 / 10)%R) example_params
                (example_grad example_params example_x example_y)).
Proof.
  apply (train_step_touches_fields_in_loss_and_params_in_optimiser
           example_grad example_store 2 example_params example_x example_y
           784 1 10 1).
  - reflexivity.
  - apply example_params_shaped.
  - apply example_x_shape.
  - apply example_y_shape.
  - apply example_grad_shape.
Defined.

(** C3, as the claim states it, fails: the loss-and-gradient computation
    does change the parameter fields of the network.  On the small
    instance one update later, the network still holds the old output
    bias; the call of [loss] on the parameter list returns a value and
    leaves a network that holds the new one. *)
Lemma loss_changes_the_model_fields :
  exists v s1,
    Scratch.loss example_grad 2 example_x example_y example_store_updated
      = Some (v, s1) /\
    Scratch.read_model example_store_updated
      = Some example_scratch_network /\
    Scratch.read_model s1 <> Scratch.read_model example_store_updated.
Proof.
  destruct (loss_runs example_grad example_store_updated 2
              (Mat example_w0) (Mat example_w1) (Vec example_b0)
              (Vec (replicate 10 1%R)) example_x example_y 784 1 10 1)
    as [v Hv].
  - reflexivity.
  - split; [|done].
    exists example_w0, example_w1, example_b0, (replicate 10 1%R).
    split; [done|]. split; [apply example_w0_shape|].
    split; [apply example_w1_shape|]. split; [done|]. apply length_replicate.
  - apply example_x_shape.
  - apply example_y_shape.
  - eexists _, _. split; [exact Hv|]. split; [reflexivity|].
    rewrite read_model_after_loss.
    change (Scratch.read_model example_store_updated)
      with (Some example_scratch_network).
    unfold example_scratch_network, example_b1.
    intros E. injection E as E. lra.
Defined.

(** ** The confusion matrix of a ten-class network *)
Section ConfusionMatrix.
Import Scratch.

Lemma test_rows_classified (nn : Eqx.SimpleNetwork) input_size hidden_size
    (x_test_flat : list (list R)) N :
  Eqx.well_shaped nn input_size hidden_size 10 ->
  has_shape x_test_flat N input_size ->
  Forall (fun xi => softmax_of_logits (Eqx.call nn) xi 10) x_test_flat.
Proof.
  intros Hnn [_ Hx]. eapply Forall_impl; [exact Hx|].
  intros xi Hxi. simpl in Hxi.
  apply (eqx_call_softmax nn xi hidden_size 10). by rewrite Hxi.
Qed.

Lemma labels_lt (y_test : list nat) :
  Forall (fun t => t <= 9) y_test -> Forall (fun t => t < 10) y_test.
Proof. intros H. eapply Forall_impl; [exact H|]. intros t Ht. simpl in Ht. lia. Qed.

End ConfusionMatrix.

(** C7.  After the evaluation of a ten-class network over [N] test
    samples whose true labels lie in [0, 9], starting from the all-zero
    matrix: every cell [r, c] holds the number of samples of true label
    [r] predicted as [c], every row [r] sums to the number of samples of
    true label [r], and all the entries sum to [N]. *)
Theorem confusion_matrix_row_sums_and_total
    (nn : Eqx.SimpleNetwork) (input_size hidden_size N : nat)
    (x_test_flat : matrix) (y_test : list nat) :
  Eqx.well_shaped nn input_size hidden_size 10 ->
  Scratch.has_shape x_test_flat N input_size ->
  length y_test = N ->
  Forall (fun t => t <= 9) y_test ->
  exists y_test_predictions,
    Eqx.y_test_predictions (Eqx.call nn) x_test_flat = Some y_test_predictions /\
    Scratch.has_shape (Eqx.confusion_matrix y_test y_test_predictions) 10 10 /\
    (forall r c, r < 10 -> c < 10 ->
       entry (Eqx.confusion_matrix y_test y_test_predictions) r c
       = INR (cell_count y_test y_test_predictions r c)) /\
    (forall r, r < 10 ->
       np.sum (Eqx.confusion_matrix y_test y_test_predictions !!! r)
       = INR (class_count y_test r)) /\
    np.sum (concat (Eqx.confusion_matrix y_test y_test_predictions)) = INR N.
Proof.
  intros Hnn Hx Hy Hl.
  destruct (predictions_in_range (Eqx.call nn) x_test_flat
              (test_rows_classified nn _ _ _ _ Hnn Hx)) as (ps & Hps & Lps & Fps).
  destruct Hx as [Lx _].
  exists ps. split; [done|].
  destruct (confusion_after_spec y_test ps (length y_test) (labels_lt _ Hl) Fps)
    as (Hs & He & Hr & Ht); [lia|lia|].
  unfold Eqx.confusion_matrix.
  rewrite !firstn_all in He, Hr.
  replace (take (length y_test) ps) with ps in He
    by (symmetry; apply take_ge; lia).
  split; [exact Hs|]. split; [exact He|]. split; [exact Hr|].
  rewrite Ht. by rewrite Hy.
Qed.

(** The small instance on a test set of one image of true label 3. *)
Lemma confusion_matrix_row_sums_and_total_witness :
  exists y_test_predictions,
    Eqx.y_test_predictions (Eqx.call example_network) example_x
      = Some y_test_predictions /\
    Scratch.has_shape (Eqx.confusion_matrix [3] y_test_predictions) 10 10 /\
    (forall r c, r < 10 -> c < 10 ->
       entry (Eqx.confusion_matrix [3] y_test_predictions) r c
       = INR (cell_count [3] y_test_predictions r c)) /\
    (forall r, r < 10 ->
       np.sum (Eqx.confusion_matrix [3] y_test_predictions !!! r)
       = INR (class_count [3] r)) /\
    np.sum (concat (Eqx.confusion_matrix [3] y_test_predictions)) = INR 1.
Proof.
  apply (confusion_matrix_row_sums_and_total
           example_network 784 1 1 example_x [3]).
  - apply example_network_shaped.
  - apply example_x_shape.
  - reflexivity.
  - repeat constructor.
Defined.

(** C10.  With true labels in [0, 9], every prediction is the arg-max of
    the ten entries the network returns and so lies in [0, 9]; at every
    turn [i] of the accumulation the matrix is ten by ten and the pair
    [true label, predicted label] indexes one of its cells, so no read is
    clamped and no update is dropped. *)
Theorem confusion_updates_stay_in_bounds
    (nn : Eqx.SimpleNetwork) (input_size hidden_size N : nat)
    (x_test_flat : matrix) (y_test : list nat) :
  Eqx.well_shaped nn input_size hidden_size 10 ->
  Scratch.has_shape x_test_flat N input_size ->
  length y_test = N ->
  Forall (fun t => t <= 9) y_test ->
  exists y_test_predictions,
    Eqx.y_test_predictions (Eqx.call nn) x_test_flat = Some y_test_predictions /\
    length y_test_predictions = N /\
    Forall (fun p => p <= 9) y_test_predictions /\
    forall i, i < N ->
      let cm := Eqx.confusion_after y_test y_test_predictions i in
      let t := y_test !!! i in
      let p := np.item y_test_predictions i in
      y_test !! i = Some t /\ y_test_predictions !! i = Some p /\
      t <= 9 /\ p <= 9 /\
      Scratch.has_shape cm 10 10 /\ in_bounds cm t p.
Proof.
  intros Hnn Hx Hy Hl.
  destruct (predictions_in_range (Eqx.call nn) x_test_flat
              (test_rows_classified nn _ _ _ _ Hnn Hx)) as (ps & Hps & Lps & Fps).
  destruct Hx as [Lx _].
  exists ps. split; [done|]. split; [lia|]. split.
  { eapply Forall_impl; [exact Fps|]. intros p Hp. simpl in Hp. lia. }
  intros i Hi. cbn zeta.
  rewrite item_in_range by lia.
  assert (Hyi : y_test !! i = Some (y_test !!! i))
    by (apply list_lookup_lookup_total_lt; lia).
  assert (Hpi : ps !! i = Some (ps !!! i))
    by (apply list_lookup_lookup_total_lt; lia).
  pose proof (Forall_lookup_1 _ _ _ _ Hl Hyi) as Ht. simpl in Ht.
  pose proof (Forall_lookup_1 _ _ _ _ Fps Hpi) as Hp. simpl in Hp.
  destruct (confusion_after_spec y_test ps i (labels_lt _ Hl) Fps)
    as (Hs & _); [lia|lia|].
  repeat split; try done; try lia.
  - apply Hs.
  - apply Hs.
  - exists (Eqx.confusion_after y_test ps i !!! (y_test !!! i)). split.
    + apply list_lookup_lookup_total_lt. destruct Hs as [-> _]. lia.
    + rewrite (shape_row _ 10 10 _ Hs) by lia. lia.
Qed.

(** The small instance on a test set of one image of true label 3. *)
Lemma confusion_updates_stay_in_bounds_witness :
  exists y_test_predictions,
    Eqx.y_test_predictions (Eqx.call example_network) example_x
      = Some y_test_predictions /\
    length y_test_predictions = 1 /\
    Forall (fun p => p <= 9) y_test_predictions /\
    forall i, i < 1 ->
      let cm := Eqx.confusion_after [3] y_test_predictions i in
      let t := [3] !!! i in
      let p := np.item y_test_predictions i in
      [3] !! i = Some t /\ y_test_predictions !! i = Some p /\
      t <= 9 /\ p <= 9 /\
      Scratch.has_shape cm 10 10 /\ in_bounds cm t p.
Proof.
  apply (confusion_updates_stay_in_bounds
           example_network 784 1 1 example_x [3]).
  - apply example_network_shaped.
  - apply example_x_shape.
  - reflexivity.
  - repeat constructor.
Defined.

(** ** Drawing a batch *)
Section Sampling.
Context {key : Type} `{!jr.PRNG key}.
Hypothesis permutation_shuffles : jr.shuffles.

Lemma choice_distinct (k : key) (pool n_draws : nat) :
  n_draws <= pool ->
  distinct_draw pool n_draws (jr.choice k (np.arange pool) n_draws).
Proof.
  intros Hle. unfold jr.choice, np.arange.
  rewrite decide_True by (by rewrite length_seq).
  pose proof (permutation_shuffles k (seq 0 pool)) as Hperm.
  eexists. split; [done|]. split; [|split].
  - eapply sublist_NoDup; [|apply sublist_take].
    rewrite Hperm. apply NoDup_seq.
  - rewrite length_take, (Permutation_length Hperm), length_seq. lia.
  - apply Forall_forall. intros i Hi.
    apply subseteq_take in Hi. rewrite Hperm in Hi.
    apply elem_of_seq in Hi. lia.
Qed.

End Sampling.

(** C5.  At every training step [i] and for every requested batch size
    that does not exceed the training pool, the draw of the batch indices
    succeeds and returns indices of the pool with no duplicate among them
    and exactly as many as requested.  Stated for the three training
    loops: pools of 60000 in the two perceptron notebooks, of 5421 in the
    neural-ODE notebook.  The shuffle of the random-number library is
    assumed to return a permutation of its input. *)
Theorem batch_indices_are_distinct
    (key : Type) (prng : jr.PRNG key) (k : key) (i : nat)
    (BATCH_SIZE BATCH_SIZE' : nat) :
  jr.shuffles ->
  BATCH_SIZE <= Z.to_nat 60000 ->
  BATCH_SIZE' <= Z.to_nat 5421 ->
  distinct_draw (Z.to_nat 60000) BATCH_SIZE (Eqx.inds k i BATCH_SIZE) /\
  distinct_draw (Z.to_nat 60000) BATCH_SIZE (Scratch.inds k i BATCH_SIZE) /\
  distinct_draw (Z.to_nat 5421) BATCH_SIZE' (NeuralODE.inds k i BATCH_SIZE').
Proof.
  intros Hs H1 H2. unfold Eqx.inds, Scratch.inds, NeuralODE.inds.
  repeat split; by apply choice_distinct.
Qed.

(** The first step, batches of 32 and 16, under the reversing shuffle. *)
Lemma batch_indices_are_distinct_witness :
  distinct_draw (Z.to_nat 60000) 32 (@Eqx.inds nat example_prng 7 0 32) /\
  distinct_draw (Z.to_nat 60000) 32 (@Scratch.inds nat example_prng 7 0 32) /\
  distinct_draw (Z.to_nat 5421) 16 (@NeuralODE.inds nat example_prng 7 0 16).
Proof.
  apply (batch_indices_are_distinct nat example_prng 7 0 32 16).
  - apply example_prng_shuffles.
  - lia.
  - lia.
Defined.

(** ** Grouping the training images by class *)
Section Grouping.
Context {A : Type}.
Implicit Types (x : list A) (y : list nat).

Lemma length_rows_of_class x y c :
  length x = length y -> length (rows_of_class x y c) = class_count y c.
Proof.
  revert x. induction y as [|t y IH]; intros [|a x] Hl; try done.
  unfold rows_of_class, NeuralODE.mask_index, NeuralODE.eq_mask, class_count in *.
  cbn [fmap list_fmap zip_with]. destruct (decide (t = c)) as [->|Hne].
  - rewrite bool_decide_eq_true_2 by done.
    rewrite !filter_cons_True by done. cbn [fmap list_fmap length].
    f_equal. apply IH. simpl in Hl. lia.
  - rewrite bool_decide_eq_false_2 by done.
    rewrite filter_cons_False by (simpl; tauto).
    rewrite filter_cons_False by done. apply IH. simpl in Hl. lia.
Qed.

(** The first loop builds the ten groups and the list of their sizes. *)
Lemma group_loop_spec x y n :
  foldl (NeuralODE.group_step x y) ([], []) (seq 0 n)
  = (rows_of_class x y <$> seq 0 n, (length ∘ rows_of_class x y) <$> seq 0 n).
Proof.
  induction n as [|n IH]; [done|].
  rewrite seq_S, foldl_snoc, IH, !fmap_app. cbn [fmap list_fmap].
  unfold NeuralODE.group_step. cbn [plus]. f_equal. f_equal. f_equal.
  rewrite list_lookup_total_middle; [done|].
  by rewrite length_fmap, length_seq.
Qed.

(** The second loop cuts the first [n] groups and leaves the others. *)
Lemma truncate_loop_spec (m : nat) (g : list (list A)) n :
  n <= length g ->
  foldl (NeuralODE.truncate_step m) g (seq 0 n)
  = (take m <$> take n g) ++ drop n g.
Proof.
  induction n as [|n IH]; intros Hn.
  - cbn. by rewrite drop_0.
  - rewrite seq_S, foldl_snoc, IH by lia. cbn [plus].
    unfold NeuralODE.truncate_step.
    assert (Hg : g !! n = Some (g !!! n))
      by (apply list_lookup_lookup_total_lt; lia).
    assert (Hlen : length (take m <$> take n g) = n)
      by (rewrite length_fmap, length_take; lia).
    rewrite (drop_S g (g !!! n) n Hg).
    rewrite list_lookup_total_middle by done.
    rewrite insert_app_r_alt by lia. rewrite Hlen, Nat.sub_diag.
    cbn [insert list_insert].
    rewrite (take_S_r g n (g !!! n) Hg), fmap_app, <- app_assoc. done.
Qed.

Lemma np_min_spec (l : list nat) m :
  np.min l = Some m -> Forall (fun t => m <= t) l /\ m ∈ l.
Proof.
  destruct l as [|a l]; [done|]. cbn [np.min]. intros [= <-].
  induction l as [|b l [IH1 IH2]].
  - cbn. split; [by repeat constructor|]. by left.
  - cbn [foldr]. apply Forall_cons in IH1 as [Ha Hl]. split.
    + repeat constructor; [lia|lia|].
      eapply Forall_impl; [exact Hl|]. intros t Ht. simpl in Ht. lia.
    + destruct (Nat.min_spec b (foldr Nat.min a l)) as [[_ ->]|[_ ->]].
      * right. left.
      * apply elem_of_cons in IH2 as [->|IH2]; [left|right; by right].
Qed.

End Grouping.

(** C9.  After the grouping step of the neural-ODE notebook, run on
    images and labels of one length, there are ten groups; the number
    [minlength] they are cut to is the least of the ten class counts; and
    for every class [c] in [0, 9] the group of [c] holds exactly
    [minlength] samples, the first [minlength] images of class [c], the
    later ones being dropped.  The cell returns for every such input: no
    imbalance makes it fail. *)
Theorem groups_truncated_to_min_class_count
    {A : Type} (x_train : list A) (y_train : list nat) :
  length x_train = length y_train ->
  exists grouped minlength,
    NeuralODE.x_train_grouped x_train y_train = Some grouped /\
    length grouped = 10 /\
    (forall c, c < 10 -> minlength <= class_count y_train c) /\
    (exists c, c < 10 /\ minlength = class_count y_train c) /\
    forall c, c < 10 ->
      exists g, grouped !! c = Some g /\ length g = minlength /\
        g = take minlength (rows_of_class x_train y_train c).
Proof.
  intros Hl. unfold NeuralODE.x_train_grouped. rewrite group_loop_spec.
  set (rows := rows_of_class x_train y_train).
  set (G := rows <$> seq 0 10).
  set (L := (length ∘ rows) <$> seq 0 10).
  destruct (np.min L) as [m|] eqn:Hm; [|done].
  cbn [mbind option_bind].
  destruct (np_min_spec L m Hm) as [Hle Hin].
  assert (Hcount : forall c, length (rows c) = class_count y_train c)
    by (intros c; by apply length_rows_of_class).
  assert (HL : forall c, c < 10 -> L !! c = Some (class_count y_train c)).
  { intros c Hc. unfold L. rewrite list_lookup_fmap, lookup_seq_lt by done.
    cbn. by rewrite Hcount. }
  rewrite (truncate_loop_spec m G 10) by done.
  rewrite firstn_all2 by done. rewrite (drop_ge G 10) by done.
  rewrite app_nil_r.
  exists (take m <$> G), m. split; [done|]. split; [done|]. split; [|split].
  - intros c Hc. apply (Forall_lookup_1 _ _ _ _ Hle (HL c Hc)).
  - apply list_elem_of_lookup in Hin as [c Hc].
    assert (Hc10 : c < 10).
    { apply lookup_lt_Some in Hc. unfold L in Hc.
      by rewrite length_fmap, length_seq in Hc. }
    exists c. split; [done|]. rewrite (HL c Hc10) in Hc. by injection Hc.
  - intros c Hc. exists (take m (rows c)). split; [|split; [|done]].
    + unfold G. rewrite !list_lookup_fmap, lookup_seq_lt by done. done.
    + rewrite length_take, Hcount.
      pose proof (Forall_lookup_1 _ _ _ _ Hle (HL c Hc)) as Hmc.
      simpl in Hmc. lia.
Qed.

(** Eleven images, two of class 0 and one of every other class: every
    group is cut to one image, and the second image of class 0 is
    dropped. *)
Lemma groups_truncated_to_min_class_count_witness :
  exists grouped minlength,
    NeuralODE.x_train_grouped
      [10; 11; 12; 13; 14; 15; 16; 17; 18; 19; 20]
      [0; 1; 2; 3; 4; 5; 6; 7; 8; 9; 0] = Some grouped /\
    length grouped = 10 /\
    (forall c, c < 10 ->
       minlength <= class_count [0; 1; 2; 3; 4; 5; 6; 7; 8; 9; 0] c) /\
    (exists c, c < 10 /\
       minlength = class_count [0; 1; 2; 3; 4; 5; 6; 7; 8; 9; 0] c) /\
    forall c, c < 10 ->
      exists g, grouped !! c = Some g /\ length g = minlength /\
        g = take minlength
              (rows_of_class [10; 11; 12; 13; 14; 15; 16; 17; 18; 19; 20]
                 [0; 1; 2; 3; 4; 5; 6; 7; 8; 9; 0] c).
Proof.
  apply (groups_truncated_to_min_class_count
           [10; 11; 12; 13; 14; 15; 16; 17; 18; 19; 20]
           [0; 1; 2; 3; 4; 5; 6; 7; 8; 9; 0]).
  reflexivity.
Defined.

(** * Further properties of the cells *)

(** ** The activations *)
Section Activations.
Local Open Scope R_scope.
Import Scratch.

Lemma relu_lookup (x : list R) i v :
  x !! i = Some v -> relu_activation x !! i = Some (Rmax v 0).
Proof.
  intros H. unfold relu_activation, np.maximum.
  change (map ?f ?l) with (f <$> l). by rewrite list_lookup_fmap, H.
Qed.

End Activations.

(** X1.  [relu_activation] keeps the length of its input, returns no
    entry below zero, keeps every entry that is at least zero and puts
    zero in place of every entry below it, and doing it twice is doing it
    once. *)
Theorem relu_activation_clips_and_is_idempotent (x : vector) :
  length (Scratch.relu_activation x) = length x /\
  Forall (fun t => (0 <= t)%R) (Scratch.relu_activation x) /\
  (forall i v, x !! i = Some v ->
     Scratch.relu_activation x !! i
     = Some (if Rle_dec 0 v then v else 0%R)) /\
  Scratch.relu_activation (Scratch.relu_activation x)
  = Scratch.relu_activation x.
Proof.
  split; [apply length_relu|]. split; [|split].
  - unfold Scratch.relu_activation, np.maximum.
    apply Forall_map, Forall_forall. intros t _. simpl. apply Rmax_r.
  - intros i v H. rewrite (relu_lookup _ _ _ H). f_equal.
    destruct (Rle_dec 0 v) as [Hv|Hv].
    + by apply Rmax_left.
    + apply Rmax_right. lra.
  - unfold Scratch.relu_activation, np.maximum. rewrite map_map.
    apply map_ext. intros t. apply Rmax_left, Rmax_r.
Qed.

(** ** The largest entry and the predicted class *)
Section Prediction.
Local Open Scope R_scope.
Import Scratch.

(** The scan either keeps the candidate it started from, which nothing
    exceeds, or ends on a later entry that beats it and that nothing
    exceeds. *)
Lemma argmax_from_max (l : list R) i best bi :
  (np.argmax_from l i best bi = bi /\ Forall (fun x => x <= best) l) \/
  (exists k x, np.argmax_from l i best bi = (i + k)%nat /\ l !! k = Some x /\
     best < x /\ Forall (fun y => y <= x) l).
Proof.
  revert i best bi. induction l as [|x l IH]; intros i best bi.
  - left. by split.
  - cbn [np.argmax_from]. destruct (Rlt_dec best x) as [Hlt|Hge].
    + right. destruct (IH (S i) x i) as [[Hr Hall]|(k & x' & Hr & Hk & Hx & Hall)].
      * exists 0%nat, x. rewrite Hr, Nat.add_0_r. split; [done|]. split; [done|].
        split; [done|]. constructor; [lra|done].
      * exists (S k), x'. rewrite Hr. split; [lia|]. split; [done|].
        split; [lra|]. constructor; [lra|done].
    + destruct (IH (S i) best bi) as [[Hr Hall]|(k & x' & Hr & Hk & Hx & Hall)].
      * left. split; [done|]. constructor; [lra|done].
      * right. exists (S k), x'. rewrite Hr. split; [lia|]. split; [done|].
        split; [done|]. constructor; [lra|done].
Qed.

(** [np.argmax] returns an index of the list, and no entry exceeds the
    one it points at. *)
Lemma argmax_is_max (l : list R) j :
  np.argmax l = Some j ->
  l !! j = Some (l !!! j) /\ Forall (fun x => x <= l !!! j) l.
Proof.
  destruct l as [|x t]; [done|]. cbn [np.argmax]. intros [= <-].
  destruct (argmax_from_max t 1 x 0) as [[-> Hall]|(k & x' & -> & Hk & Hx & Hall)].
  - split; [done|]. cbn. constructor; [lra|done].
  - assert (E : (x :: t) !! (1 + k)%nat = Some x') by done.
    rewrite (list_lookup_total_correct _ _ _ E). split; [done|].
    constructor; [lra|done].
Qed.

Lemma sum_le_length (l : list R) m :
  Forall (fun x => x <= m) l -> np.sum l <= INR (length l) * m.
Proof.
  induction 1 as [|x l Hx _ IH].
  - rewrite sum_nil. cbn. lra.
  - rewrite sum_cons. cbn [length]. rewrite S_INR. lra.
Qed.

Lemma matmul_wrong_length (w : list (list R)) (x : list R) cols :
  w <> [] -> Forall (fun r => length r = cols) w -> length x <> cols ->
  np.matmul w x = None.
Proof.
  intros Hne Hw Hx. destruct w as [|r w]; [done|].
  apply Forall_cons in Hw as [Hr _]. unfold np.matmul.
  apply mapM_None_2. left. unfold np.dot.
  rewrite decide_False by congruence. done.
Qed.

End Prediction.

(** X4.  For a ten-class network and an input of its input size, the
    prediction of the evaluation cell is an index of the output that holds
    its largest probability, and that probability is at least one
    tenth. *)
Theorem predicted_class_has_largest_probability
    (nn : Eqx.SimpleNetwork) (input_size hidden_size : nat) (x : vector) :
  Eqx.well_shaped nn input_size hidden_size 10 ->
  length x = input_size ->
  exists p j,
    Eqx.call nn x = Some p /\
    Eqx.y_test_predictions (Eqx.call nn) [x] = Some [j] /\
    p !! j = Some (p !!! j) /\
    (forall i q, p !! i = Some q -> (q <= p !!! j)%R) /\
    (1 / 10 <= p !!! j)%R.
Proof.
  intros Hnn Hx. subst input_size.
  destruct (eqx_call_softmax nn x hidden_size 10 Hnn) as (h & Hh & Hc).
  set (p := Scratch.softmax_activation h) in *.
  assert (Hlen : length p = 10) by (unfold p; by rewrite length_softmax).
  destruct (argmax_Some_lt p) as (j & Hj & Hlt); [by destruct p|].
  destruct (argmax_is_max p j Hj) as [Hpj Hmax].
  exists p, j. split; [done|]. split.
  { unfold Eqx.y_test_predictions, jax.vmap. cbn [mapM].
    rewrite Hc. cbn. rewrite Hj. done. }
  split; [done|]. split.
  { intros i q Hq. apply (Forall_lookup_1 _ _ _ _ Hmax Hq). }
  pose proof (sum_le_length p _ Hmax) as Hs.
  rewrite Hlen in Hs.
  assert (Hsum : np.sum p = 1%R) by (apply softmax_sum; by destruct h).
  rewrite Hsum in Hs. replace (INR 10) with 10%R in Hs by (simpl; lra). lra.
Qed.

(** The small instance, at a blank image. *)
Lemma predicted_class_has_largest_probability_witness :
  exists p j,
    Eqx.call example_network (replicate 784 0%R) = Some p /\
    Eqx.y_test_predictions (Eqx.call example_network) [replicate 784 0%R]
      = Some [j] /\
    p !! j = Some (p !!! j) /\
    (forall i q, p !! i = Some q -> (q <= p !!! j)%R) /\
    (1 / 10 <= p !!! j)%R.
Proof.
  apply (predicted_class_has_largest_probability
           example_network 784 1 (replicate 784 0%R)).
  - apply example_network_shaped.
  - apply example_x_row.
Defined.

(** X5.  A network with at least one hidden unit rejects an input whose
    length is not its input size: the first matrix product fails, in the
    Equinox network and in the hand-written one. *)
Theorem wrong_length_input_is_rejected
    (nn : Eqx.SimpleNetwork) (nn' : Scratch.SimpleNetwork)
    (input_size hidden_size output_size : nat) (x : vector) :
  Eqx.well_shaped nn input_size hidden_size output_size ->
  Scratch.well_shaped nn' input_size hidden_size output_size ->
  0 < hidden_size ->
  length x <> input_size ->
  Eqx.call nn x = None /\ Scratch.call nn' x = None.
Proof.
  intros (l1 & l2 & HL & [L1 S1] & _) [(w0 & w1 & b0 & b1 & HP & [L0 S0] & _) Hlen]
         Hh Hx.
  split.
  - unfold Eqx.call. rewrite HL. cbn [foldl Eqx.apply mbind option_bind].
    unfold Scratch.linear_layer.
    assert (Hne : Eqx.weight l1 <> [])
      by (intros E; rewrite E in L1; simpl in L1; lia).
    rewrite (matmul_wrong_length _ x input_size Hne S1 Hx).
    cbn [mbind option_bind]. done.
  - destruct nn' as [W B]. simpl in *.
    destruct W as [|a0 [|a1 [|? ?]]]; try done. simpl in HP.
    injection HP as -> -> ->.
    unfold Scratch.call, Scratch.mat_at, Scratch.vec_at.
    cbn [Scratch.weights Scratch.bias lookup list_lookup mbind option_bind].
    unfold Scratch.linear_layer.
    assert (Hne : w0 <> []) by (intros E; rewrite E in L0; simpl in L0; lia).
    rewrite (matmul_wrong_length _ x input_size Hne S0 Hx). done.
Qed.

(** The small instance, given a single pixel. *)
Lemma wrong_length_input_is_rejected_witness :
  Eqx.call example_network [0%R] = None /\
  Scratch.call example_scratch_network [0%R] = None.
Proof.
  apply (wrong_length_input_is_rejected
           example_network example_scratch_network 784 1 10 [0%R]).
  - apply example_network_shaped.
  - apply example_scratch_network_shaped.
  - lia.
  - cbn. lia.
Defined.

(** ** The loss on one-hot targets *)
Section OneHotLoss.
Local Open Scope R_scope.
Import Scratch.

Lemma one_hot_rows_shape (y : list nat) n :
  has_shape (jax.one_hot_rows y n) (length y) n.
Proof.
  unfold jax.one_hot_rows. split; [by rewrite length_fmap|].
  apply Forall_fmap, Forall_forall. intros L _. simpl.
  unfold jax.one_hot, np.arange. by rewrite length_map, length_seq.
Qed.

Lemma entry_one_hot_rows (y : list nat) n b c :
  (b < length y)%nat -> (c < n)%nat ->
  entry (jax.one_hot_rows y n) b c = if decide (c = y !!! b) then 1 else 0.
Proof.
  intros Hb Hc. unfold entry, jax.one_hot_rows.
  rewrite (list_lookup_total_fmap (fun L => jax.one_hot L n) y b) by done.
  apply list_lookup_total_correct. by apply one_hot_lookup.
Qed.

Lemma sum_upto_pick n (f : nat -> R) L :
  (L < n)%nat ->
  sum_upto n (fun c => (if decide (c = L) then 1 else 0) * f c) = f L.
Proof.
  induction n as [|n IH]; intros HL; [lia|]. cbn [sum_upto].
  destruct (decide (n = L)) as [->|Hne].
  - rewrite (sum_upto_ext L _ (fun _ => 0)).
    + assert (Hz : forall k, sum_upto k (fun _ => 0) = 0).
      { induction k as [|k IHk]; [done|]. cbn [sum_upto]. rewrite IHk. lra. }
      rewrite Hz. lra.
    + intros i Hi. rewrite decide_False by lia. lra.
  - rewrite IH by lia. lra.
Qed.

Lemma sum_upto_nonpos n (f : nat -> R) :
  (forall i, (i < n)%nat -> f i <= 0) -> sum_upto n f <= 0.
Proof.
  induction n as [|n IH]; intros Hf; [cbn; lra|]. cbn [sum_upto].
  pose proof (Hf n ltac:(lia)).
  assert (sum_upto n f <= 0) by (apply IH; intros; apply Hf; lia). lra.
Qed.

Lemma sum_upto_all_zero n (f : nat -> R) :
  (forall i, (i < n)%nat -> f i = 0) -> sum_upto n f = 0.
Proof.
  induction n as [|n IH]; intros Hf; [done|]. cbn [sum_upto].
  rewrite IH, Hf by (intros; try apply Hf; lia). lra.
Qed.

Lemma sum_pos_nonneg (l : list R) : Forall (fun t => 0 < t) l -> 0 <= np.sum l.
Proof.
  induction 1 as [|x l Hx _ IH]; [rewrite sum_nil; lra|].
  rewrite sum_cons. lra.
Qed.

(** With two entries or more, every entry of the softmax lies strictly
    between zero and one. *)
Lemma softmax_lt_1 (h : list R) :
  (2 <= length h)%nat -> Forall (fun t => 0 < t < 1) (softmax_activation h).
Proof.
  intros Hlen.
  assert (Hne : h <> []) by (intros ->; simpl in Hlen; lia).
  pose proof (softmax_pos h) as Hpos. pose proof (softmax_sum h Hne) as Hsum.
  pose proof (length_softmax h) as Hl.
  set (p := softmax_activation h) in *.
  apply Forall_lookup. intros i t Hi.
  pose proof (Forall_lookup_1 _ _ _ _ Hpos Hi) as Ht. simpl in Ht.
  split; [done|].
  apply list_elem_of_split_length in Hi as (pre & post & Ep & _).
  rewrite Ep in Hsum, Hpos, Hl. rewrite sum_app, sum_cons in Hsum.
  apply Forall_app in Hpos as [Hpre Hpost].
  apply Forall_cons in Hpost as [_ Hpost].
  pose proof (sum_pos_nonneg pre Hpre). pose proof (sum_pos_nonneg post Hpost).
  rewrite length_app in Hl. cbn [length] in Hl.
  destruct pre as [|a pre].
  - destruct post as [|a post]; [simpl in Hl; lia|].
    apply Forall_cons in Hpost as [Ha Hpost]. rewrite sum_cons in Hsum.
    pose proof (sum_pos_nonneg post Hpost). rewrite sum_nil in Hsum. lra.
  - apply Forall_cons in Hpre as [Ha Hpre]. rewrite sum_cons in Hsum.
    pose proof (sum_pos_nonneg pre Hpre). lra.
Qed.

(** Every row [jax.vmap] returns is the softmax of the logits of one
    input. *)
Lemma vmap_rows (f : list R -> option (list R)) (x : list (list R)) n q :
  Forall (fun xi => softmax_of_logits f xi n) x ->
  jax.vmap f x = Some q ->
  Forall (fun r => exists h, length h = n /\ r = softmax_activation h) q.
Proof.
  intros Hx Hq. apply mapM_Some_1 in Hq.
  induction Hq as [|xi r x q Hr _ IH]; [constructor|].
  apply Forall_cons in Hx as [(h & Hh & Hf) Hx].
  constructor; [|by apply IH]. exists h. split; [done|]. congruence.
Qed.

(** The value of the loss, read off the predictions [jax.vmap]
    returns. *)
Lemma loss_of_predictions (model : list R -> option (list R))
    (x y q : list (list R)) B :
  (0 < B)%nat -> jax.vmap model x = Some q ->
  has_shape y B 10 -> has_shape q B 10 ->
  Eqx.loss model x y
  = Some (- (1 / (INR B * 10)) * batch_class_sum B y q).
Proof.
  intros HB Hq Hy Sq.
  destruct (multiply_shape y (np.log q) B 10 Hy (has_shape_log _ _ _ Sq))
    as (m & Hmul & Sm & Em).
  unfold Eqx.loss. rewrite Hq. cbn [mbind option_bind]. rewrite Hmul.
  cbn [mbind option_bind]. f_equal. unfold np.mean.
  rewrite (length_concat_shape m B 10 Sm), (sum_matrix_by_index m B 10 Sm).
  rewrite mult_INR.
  assert (HBR : 0 < INR B) by (apply lt_0_INR; lia).
  replace (INR 10) with 10 by (simpl; lra).
  unfold batch_class_sum.
  rewrite (sum_upto_ext B _ (fun b => sum_upto 10 (fun c =>
             entry y b c * ln (entry q b c)))).
  { field. lra. }
  intros b Hb. apply sum_upto_ext. intros c Hc.
  rewrite Em by done. by rewrite (entry_log q B 10).
Qed.

(** A ten-class network of the constructor's shapes predicts, for every
    row of the batch, ten probabilities that are positive and at most
    one. *)
Lemma network_predictions (nn : Eqx.SimpleNetwork) input_size hidden_size
    (x : list (list R)) B :
  Eqx.well_shaped nn input_size hidden_size 10 ->
  has_shape x B input_size ->
  exists q, jax.vmap (Eqx.call nn) x = Some q /\ has_shape q B 10 /\
            Forall (Forall (fun p => 0 < p <= 1)) q.
Proof.
  intros Hnn Hx.
  pose proof (test_rows_classified nn _ _ _ _ Hnn Hx) as Hrows.
  destruct (vmap_shape _ _ _ Hrows) as (q & Hq & Sq).
  destruct Hx as [Lx _]. rewrite Lx in Sq.
  exists q. split; [done|]. split; [done|].
  eapply Forall_impl; [exact (vmap_rows _ _ _ _ Hrows Hq)|].
  intros r (h & Hh & ->). simpl.
  eapply Forall_impl; [apply (softmax_lt_1 h); lia|].
  intros t Ht. simpl in Ht. lra.
Qed.

End OneHotLoss.

(** X6.  The loss on one-hot targets, read off the predictions.  For a
    batch of [B > 0] rows whose predictions are [B] rows of ten
    probabilities, each positive and at most one, and targets that are
    the one-hot rows of labels in [0, 9]: the loss keeps one term per
    sample, the logarithm of the probability given to the true class, and
    is minus their sum over [B * 10]; it is never negative; and it is
    zero when every true class is given probability one. *)
Theorem loss_on_one_hot_targets
    (model : vector -> option vector) (B : nat)
    (x : matrix) (labels : list nat) (y_predicted : matrix) :
  (0 < B)%nat ->
  length labels = B ->
  Forall (fun L => L <= 9) labels ->
  jax.vmap model x = Some y_predicted ->
  Scratch.has_shape y_predicted B 10 ->
  Forall (Forall (fun p => (0 < p <= 1)%R)) y_predicted ->
  exists v,
    Eqx.loss model x (jax.one_hot_rows labels 10) = Some v /\
    v = (- (1 / (INR B * 10))
         * sum_upto B (fun b => ln (entry y_predicted b (labels !!! b))))%R /\
    (0 <= v)%R /\
    ((forall b, b < B -> entry y_predicted b (labels !!! b) = 1%R) ->
     v = 0%R).
Proof.
  intros HB Hl HL Hq Sq Hp.
  assert (Hy : Scratch.has_shape (jax.one_hot_rows labels 10) B 10)
    by (rewrite <- Hl; apply one_hot_rows_shape).
  eexists. split; [by apply loss_of_predictions|].
  assert (Hlab : forall b, (b < B)%nat -> labels !!! b < 10).
  { intros b Hb.
    assert (Hb' : labels !! b = Some (labels !!! b))
      by (apply list_lookup_lookup_total_lt; lia).
    pose proof (Forall_lookup_1 _ _ _ _ HL Hb') as H. simpl in H. lia. }
  assert (Hsum : batch_class_sum B (jax.one_hot_rows labels 10) y_predicted
                 = sum_upto B
                     (fun b => ln (entry y_predicted b (labels !!! b)))).
  { unfold batch_class_sum. apply sum_upto_ext. intros b Hb.
    rewrite (sum_upto_ext 10 _ (fun c =>
               ((if decide (c = labels !!! b) then 1 else 0)
                * ln (entry y_predicted b c))%R)).
    - apply sum_upto_pick. by apply Hlab.
    - intros c Hc. rewrite entry_one_hot_rows by lia. done. }
  rewrite Hsum. split; [done|].
  assert (HBR : (0 < INR B)%R) by (apply lt_0_INR; lia).
  assert (Hpos : (0 < 1 / (INR B * 10))%R) by (apply Rdiv_lt_0_compat; lra).
  split.
  - assert (Hneg : (sum_upto B
                      (fun b => ln (entry y_predicted b (labels !!! b)))
                    <= 0)%R).
    { apply sum_upto_nonpos. intros b Hb.
      assert (Hqb : y_predicted !! b = Some (y_predicted !!! b)).
      { apply list_lookup_lookup_total_lt. destruct Sq as [-> _]. done. }
      pose proof (Forall_lookup_1 _ _ _ _ Hp Hqb) as Hrow. simpl in Hrow.
      assert (Hc : (y_predicted !!! b) !! (labels !!! b)
                   = Some (entry y_predicted b (labels !!! b))).
      { unfold entry. apply list_lookup_lookup_total_lt.
        rewrite (shape_row y_predicted B 10 b Sq Hb). by apply Hlab. }
      pose proof (Forall_lookup_1 _ _ _ _ Hrow Hc) as [H0 H1].
      simpl in H0, H1. destruct (Req_dec (entry y_predicted b (labels !!! b)) 1)
        as [->|Hne].
      - rewrite ln_1. lra.
      - rewrite <- ln_1. left. apply ln_increasing; lra. }
    nra.
  - intros Hone. rewrite sum_upto_all_zero; [lra|].
    intros b Hb. rewrite Hone by done. apply ln_1.
Qed.

(** The small instance: one blank image of label 3, and what the network
    predicts for it. *)
Lemma loss_on_one_hot_targets_witness :
  exists y_predicted v,
    jax.vmap (Eqx.call example_network) example_x = Some y_predicted /\
    Scratch.has_shape y_predicted 1 10 /\
    Forall (Forall (fun p => (0 < p <= 1)%R)) y_predicted /\
    Eqx.loss (Eqx.call example_network) example_x (jax.one_hot_rows [3] 10)
      = Some v /\
    v = (- (1 / (INR 1 * 10))
         * sum_upto 1 (fun b => ln (entry y_predicted b ([3%nat] !!! b))))%R /\
    (0 <= v)%R /\
    ((forall b, b < 1 -> entry y_predicted b ([3%nat] !!! b) = 1%R) ->
     v = 0%R).
Proof.
  destruct (network_predictions example_network 784 1 example_x 1
              example_network_shaped example_x_shape) as (q & Hq & Sq & Pq).
  exists q.
  destruct (loss_on_one_hot_targets (Eqx.call example_network) 1 example_x
              [3] q) as (v & Hv).
  - lia.
  - reflexivity.
  - repeat constructor.
  - exact Hq.
  - exact Sq.
  - exact Pq.
  - exists v. split; [exact Hq|]. split; [exact Sq|]. split; [exact Pq|].
    exact Hv.
Defined.

(** X7.  The value of the from-scratch [loss] is decided by the entries
    of the parameter list, the inputs and the targets alone: what the
    network held before the call, and where the lists live, play no part;
    two stores that hold the same parameter list give the same value, or
    fail together. *)
Theorem loss_value_ignores_the_fields_of_the_network
    (s s' : Scratch.store) (l l' : Scratch.loc) (P : list array)
    (x y : matrix) :
  Scratch.lists s !! l = Some P ->
  Scratch.lists s' !! l' = Some P ->
  fst <$> Scratch.loss_body l x y s = fst <$> Scratch.loss_body l' x y s'.
Proof.
  intros H H'.
  destruct P as [|p0 [|p1 [|p2 [|p3 rest]]]].
  1-4: unfold Scratch.loss_body; rewrite H, H'; done.
  rewrite (loss_body_eq _ _ _ _ _ _ _ _ _ H), (loss_body_eq _ _ _ _ _ _ _ _ _ H').
  destruct (Eqx.loss _ x y); done.
Qed.

(** The store of the notebook and a bare one, on the same parameters. *)
Lemma loss_value_ignores_the_fields_of_the_network_witness :
  fst <$> Scratch.loss_body 2 example_x example_y example_store
  = fst <$> Scratch.loss_body 0 example_x example_y example_store_bare.
Proof.
  apply (loss_value_ignores_the_fields_of_the_network
           example_store example_store_bare 2 0 example_params
           example_x example_y); reflexivity.
Defined.

(** ** More on the gradient-descent update *)
Section OptimiserMore.
Local Open Scope R_scope.
Import Scratch.

(** The loop on a list whose first entries are already rewritten and
    whose last entries have no gradient. *)
Lemma optimiser_loop_middle lr (pre P g rest : list array) :
  Forall2 same_shape P g ->
  foldl (fun acc '(i, dm) =>
           P ← acc;
           p ← P !! i;
           q ← np.subtract p (np.scale lr dm);
           Some (<[i := q]> P))
        (Some (pre ++ P ++ rest))
        (imap (fun i dm => ((length pre + i)%nat, dm)) g)
  = Some (pre ++ zip_with (descent lr) P g ++ rest).
Proof.
  intros H. revert pre. induction H as [|p dm P g Hs _ IH]; intros pre; [done|].
  rewrite imap_cons. cbn [foldl zip_with mbind option_bind app].
  rewrite Nat.add_0_r, list_lookup_middle by done. cbn [mbind option_bind].
  rewrite subtract_scale by done. cbn [mbind option_bind].
  replace (<[length pre := descent lr p dm]> (pre ++ p :: P ++ rest))
    with ((pre ++ [descent lr p dm]) ++ P ++ rest).
  2:{ rewrite insert_app_r_alt, Nat.sub_diag by lia. by rewrite <- app_assoc. }
  rewrite (imap_ext _ (fun i d => ((length (pre ++ [descent lr p dm]) + i)%nat, d))).
  2:{ intros i x _. unfold compose. rewrite length_app. cbn. f_equal. lia. }
  rewrite IH, <- app_assoc. done.
Qed.

Lemma optimiser_fold_None lr (l : list (nat * array)) :
  foldl (fun (acc : option (list array)) '(i, dm) =>
           P ← acc;
           p ← P !! i;
           q ← np.subtract p (np.scale lr dm);
           Some (<[i := q]> P))
        None l = None.
Proof. induction l as [|[i dm] l IH]; [done|]. cbn. apply IH. Qed.

(** Once the index runs past the end of the list, the loop fails. *)
Lemma optimiser_loop_overrun lr (g Q : list array) k :
  (k <= length Q)%nat -> (length Q < k + length g)%nat ->
  foldl (fun acc '(i, dm) =>
           P ← acc;
           p ← P !! i;
           q ← np.subtract p (np.scale lr dm);
           Some (<[i := q]> P))
        (Some Q) (imap (fun i dm => ((k + i)%nat, dm)) g)
  = None.
Proof.
  revert Q k. induction g as [|dm g IH]; intros Q k Hk Hlen.
  { simpl in Hlen. lia. }
  rewrite imap_cons. cbn [foldl mbind option_bind]. rewrite Nat.add_0_r.
  destruct (Q !! k) as [p|] eqn:Ep; cbn [mbind option_bind].
  - destruct (np.subtract p (np.scale lr dm)) as [q|]; cbn [mbind option_bind].
    + rewrite (imap_ext _ (fun i d => ((S k + i)%nat, d))).
      2:{ intros i x _. unfold compose. f_equal. lia. }
      apply lookup_lt_Some in Ep.
      apply IH; rewrite length_insert; simpl in *; lia.
    + apply optimiser_fold_None.
  - apply optimiser_fold_None.
Qed.

Lemma descent_vec lr (u v : list R) :
  length u = length v ->
  descent lr (Vec u) (Vec v) = Vec (zip_with (fun a d => a - lr * d) u v).
Proof.
  intros H. unfold descent, np.subtract, np.scale.
  rewrite decide_True by (simpl; by rewrite length_map). cbn [default].
  f_equal. change (map ?f ?l) with (f <$> l). by rewrite zip_with_fmap_r.
Qed.

Lemma descent_mat lr (m n : list (list R)) :
  Forall2 (fun r s => length r = length s) m n ->
  descent lr (Mat m) (Mat n)
  = Mat (zip_with (zip_with (fun a d => a - lr * d)) m n).
Proof.
  intros H. pose proof (same_shape_scale lr (Mat m) (Mat n) H) as H'.
  unfold descent, np.subtract. rewrite decide_True by done.
  unfold np.scale. cbv [default from_option Datatypes.id]. f_equal.
  clear H H'. revert n. induction m as [|r m IH]; intros [|s n]; try done.
  cbn [map zip_with]. rewrite IH. f_equal.
  change (map ?f ?l) with (f <$> l). by rewrite zip_with_fmap_r.
Qed.

Lemma descent_same_shape lr p dm :
  same_shape p dm -> same_shape p (descent lr p dm).
Proof.
  destruct p as [u|m], dm as [v|n]; simpl; try done.
  - intros H. rewrite descent_vec by done. simpl.
    rewrite length_zip_with. lia.
  - intros H. rewrite descent_mat by done. simpl.
    induction H as [|r s m n Hr _ IH]; [constructor|].
    cbn [zip_with]. constructor; [|done]. rewrite length_zip_with. lia.
Qed.

Lemma zip_descent_same_shape lr (P g : list array) :
  Forall2 same_shape P g -> Forall2 same_shape P (zip_with (descent lr) P g).
Proof.
  induction 1 as [|p dm P g Hs _ IH]; [constructor|].
  cbn [zip_with]. constructor; [by apply descent_same_shape|done].
Qed.

(** An update keeps the shapes of the network's parameters. *)
Lemma params_shaped_same_shape (P P' : list array)
    input_size hidden_size output_size :
  params_shaped P input_size hidden_size output_size ->
  Forall2 same_shape P P' ->
  params_shaped P' input_size hidden_size output_size.
Proof.
  intros (w0 & w1 & b0 & b1 & -> & [L0 S0] & [L1 S1] & B0 & B1) H.
  apply Forall2_cons_inv_l in H as (a0 & P1 & H0 & H & ->).
  apply Forall2_cons_inv_l in H as (a1 & P2 & H1 & H & ->).
  apply Forall2_cons_inv_l in H as (a2 & P3 & H2 & H & ->).
  apply Forall2_cons_inv_l in H as (a3 & P4 & H3 & H & ->).
  apply Forall2_nil_inv_l in H as ->.
  destruct a0 as [|m0]; [done|]. destruct a1 as [|m1]; [done|].
  destruct a2 as [v2|]; [|done]. destruct a3 as [v3|]; [|done].
  simpl in H0, H1, H2, H3.
  assert (Hrows : forall (m m' : list (list R)) rows cols,
            length m = rows -> Forall (fun r => length r = cols) m ->
            Forall2 (fun r s => length r = length s) m m' ->
            has_shape m' rows cols).
  { intros m m' rows cols Lm Sm Hmm. split.
    - rewrite <- Lm. symmetry. by eapply Forall2_length.
    - apply Forall_forall. intros s Hs.
      apply list_elem_of_lookup in Hs as [i Hi].
      destruct (Forall2_lookup_r _ _ _ _ _ Hmm Hi) as (r & Hr & Hlen).
      pose proof (Forall_lookup_1 _ _ _ _ Sm Hr) as Hc. simpl in Hc. lia. }
  exists m0, m1, v2, v3. split; [done|].
  split; [by eapply Hrows|]. split; [by eapply Hrows|]. split; lia.
Qed.

End OptimiserMore.

(** X8.  With a gradient shorter than the parameter list, the update
    rewrites the entries that have a gradient and leaves the later ones
    as they are; the list keeps its length. *)
Theorem optimiser_with_a_shorter_gradient
    (model_parameters gradient : list array) (learn_rate : R) :
  length gradient <= length model_parameters ->
  Forall2 same_shape (take (length gradient) model_parameters) gradient ->
  Scratch.optimiser_loop model_parameters gradient learn_rate
  = Some (zip_with (descent learn_rate)
            (take (length gradient) model_parameters) gradient
          ++ drop (length gradient) model_parameters).
Proof.
  intros Hlen Hs.
  rewrite <- (take_drop (length gradient) model_parameters) at 1.
  apply (optimiser_loop_middle learn_rate []
           (take (length gradient) model_parameters) gradient
           (drop (length gradient) model_parameters) Hs).
Qed.

(** The parameters of the small instance, with a gradient for the first
    weight only. *)
Lemma optimiser_with_a_shorter_gradient_witness :
  Scratch.optimiser_loop example_params [Mat example_w0] (1 / 10)%R
  = Some (zip_with (descent (1 / 10)%R)
            (take (length [Mat example_w0]) example_params) [Mat example_w0]
          ++ drop (length [Mat example_w0]) example_params).
Proof.
  apply (optimiser_with_a_shorter_gradient
           example_params [Mat example_w0] (1 / 10)%R).
  - cbn. lia.
  - repeat constructor.
Defined.

(** X9.  With a gradient longer than the parameter list the update
    fails: the index of the loop runs past the end of the list. *)
Theorem optimiser_with_a_longer_gradient_fails
    (model_parameters gradient : list array) (learn_rate : R) :
  length model_parameters < length gradient ->
  Scratch.optimiser_loop model_parameters gradient learn_rate = None.
Proof.
  intros Hlen.
  apply (optimiser_loop_overrun learn_rate gradient model_parameters 0); lia.
Qed.

(** One bias and two gradients. *)
Lemma optimiser_with_a_longer_gradient_fails_witness :
  Scratch.optimiser_loop [Vec [1%R]] [Vec [1%R]; Vec [1%R]] (1 / 10)%R = None.
Proof.
  apply (optimiser_with_a_longer_gradient_fails
           [Vec [1%R]] [Vec [1%R]; Vec [1%R]] (1 / 10)%R).
  cbn. lia.
Defined.

(** X10.  With a gradient of the shape of the parameters, the update
    returns a list of the same shapes in which every entry of every
    array has moved by [learn_rate] times its gradient:
    [a - learn_rate * d]. *)
Theorem optimiser_moves_each_entry_against_its_gradient
    (model_parameters gradient : list array) (learn_rate : R) :
  Forall2 same_shape model_parameters gradient ->
  exists updated,
    Scratch.optimiser_loop model_parameters gradient learn_rate
      = Some updated /\
    Forall2 same_shape model_parameters updated /\
    (forall i u v,
       model_parameters !! i = Some (Vec u) -> gradient !! i = Some (Vec v) ->
       updated !! i
       = Some (Vec (zip_with (fun a d => (a - learn_rate * d)%R) u v))) /\
    (forall i m n,
       model_parameters !! i = Some (Mat m) -> gradient !! i = Some (Mat n) ->
       updated !! i
       = Some (Mat (zip_with
                      (zip_with (fun a d => (a - learn_rate * d)%R)) m n))).
Proof.
  intros Hs. eexists. split; [by apply optimiser_loop_spec|].
  split; [by apply zip_descent_same_shape|]. split.
  - intros i u v Hu Hv. rewrite lookup_zip_with, Hu. cbn. rewrite Hv. cbn.
    pose proof (Forall2_lookup_lr _ _ _ _ _ _ Hs Hu Hv) as H. simpl in H.
    by rewrite descent_vec.
  - intros i m n Hm Hn. rewrite lookup_zip_with, Hm. cbn. rewrite Hn. cbn.
    pose proof (Forall2_lookup_lr _ _ _ _ _ _ Hs Hm Hn) as H. simpl in H.
    by rewrite descent_mat.
Qed.

(** The parameters of the small instance against themselves. *)
Lemma optimiser_moves_each_entry_against_its_gradient_witness :
  exists updated,
    Scratch.optimiser_loop example_params example_params (1 / 10)%R
      = Some updated /\
    Forall2 same_shape example_params updated /\
    (forall i u v,
       example_params !! i = Some (Vec u) -> example_params !! i = Some (Vec v) ->
       updated !! i
       = Some (Vec (zip_with (fun a d => (a - 1 / 10 * d)%R) u v))) /\
    (forall i m n,
       example_params !! i = Some (Mat m) -> example_params !! i = Some (Mat n) ->
       updated !! i
       = Some (Mat (zip_with (zip_with (fun a d => (a - 1 / 10 * d)%R)) m n))).
Proof.
  apply (optimiser_moves_each_entry_against_its_gradient
           example_params example_params (1 / 10)%R).
  apply (example_grad_shape example_params example_x example_y).
Defined.

(** ** Columns and diagonal of the confusion matrix *)
Section ConfusionMore.
Local Open Scope R_scope.
Import Scratch.

Lemma sum_upto_add n (f g : nat -> R) :
  sum_upto n (fun i => f i + g i) = sum_upto n f + sum_upto n g.
Proof. induction n as [|n IH]; cbn [sum_upto]; [lra|]. rewrite IH. lra. Qed.

Lemma sum_upto_zero n : sum_upto n (fun _ => 0) = 0.
Proof. induction n as [|n IH]; cbn [sum_upto]; [done|]. rewrite IH. lra. Qed.

(** Exactly one index below [n] equals [t]. *)
Lemma sum_upto_indicator n t (Q : nat -> Prop) `{!forall r, Decision (Q r)} :
  (t < n)%nat ->
  sum_upto n (fun r => if decide (t = r /\ Q r) then 1 else 0)
  = if decide (Q t) then 1 else 0.
Proof.
  induction n as [|n IH]; intros Ht; [lia|]. cbn [sum_upto].
  destruct (decide (t = n)) as [->|Hne].
  - rewrite (sum_upto_ext n _ (fun _ => 0)).
    + rewrite sum_upto_zero.
      destruct (decide (Q n)); [rewrite decide_True by done|
                                rewrite decide_False by tauto]; lra.
    + intros i Hi. rewrite decide_False by lia. done.
  - rewrite IH by lia. rewrite (decide_False (P := t = n /\ Q n)) by tauto. lra.
Qed.

Lemma cell_count_cons t q (y p : list nat) r c :
  cell_count (t :: y) (q :: p) r c
  = ((if decide (t = r /\ q = c) then 1 else 0) + cell_count y p r c)%nat.
Proof.
  unfold cell_count. cbn [zip_with].
  destruct (decide (t = r /\ q = c)) as [H|H].
  - rewrite filter_cons_True by exact H. done.
  - rewrite filter_cons_False by exact H. done.
Qed.

Lemma INR_indicator (P : Prop) `{!Decision P} :
  INR (if decide P then 1 else 0) = if decide P then 1 else 0.
Proof. destruct (decide P); simpl; lra. Qed.

(** The cells of one column add up to the number of predictions of that
    class. *)
Lemma cell_count_column (y p : list nat) c :
  length p = length y -> Forall (fun t => (t < 10)%nat) y ->
  sum_upto 10 (fun r => INR (cell_count y p r c)) = INR (class_count p c).
Proof.
  intros Hl Hy. revert p Hl. induction Hy as [|t y Ht _ IH]; intros [|q p] Hl;
    try done.
  { unfold cell_count, class_count. cbn. lra. }
  rewrite (sum_upto_ext 10 _ (fun r =>
             (if decide (t = r /\ q = c) then 1 else 0)
             + INR (cell_count y p r c))).
  2:{ intros r _. rewrite cell_count_cons, plus_INR, INR_indicator. done. }
  rewrite sum_upto_add, (sum_upto_indicator 10 t (fun _ => q = c)) by done.
  rewrite IH by (simpl in Hl; lia).
  unfold class_count. destruct (decide (q = c)) as [H|H].
  - rewrite filter_cons_True by exact H. cbn [length]. rewrite S_INR. lra.
  - rewrite filter_cons_False by exact H. lra.
Qed.

(** The cells of the diagonal add up to the number of correct
    predictions. *)
Lemma cell_count_diagonal (y p : list nat) :
  length p = length y -> Forall (fun t => (t < 10)%nat) y ->
  sum_upto 10 (fun r => INR (cell_count y p r r)) = INR (correct_count y p).
Proof.
  intros Hl Hy. revert p Hl. induction Hy as [|t y Ht _ IH]; intros [|q p] Hl;
    try done.
  { unfold cell_count, correct_count. cbn. lra. }
  rewrite (sum_upto_ext 10 _ (fun r =>
             (if decide (t = r /\ q = r) then 1 else 0)
             + INR (cell_count y p r r))).
  2:{ intros r _. rewrite cell_count_cons, plus_INR, INR_indicator. done. }
  rewrite sum_upto_add, (sum_upto_indicator 10 t (fun r => q = r)) by done.
  rewrite IH by (simpl in Hl; lia).
  unfold correct_count. cbn [zip_with].
  destruct (decide (q = t)) as [H|H].
  - rewrite filter_cons_True by (simpl; done). cbn [length]. rewrite S_INR. lra.
  - rewrite filter_cons_False by (simpl; congruence). lra.
Qed.

(** When every prediction is the true label, only the diagonal cells
    count anything. *)
Lemma cell_count_perfect (y : list nat) r c :
  cell_count y y r c = if decide (r = c) then class_count y r else 0%nat.
Proof.
  induction y as [|t y IH].
  { unfold cell_count, class_count. cbn. by destruct (decide (r = c)). }
  rewrite cell_count_cons, IH. unfold class_count.
  destruct (decide (r = c)) as [->|Hne].
  - destruct (decide (t = c)) as [->|Ht].
    + rewrite decide_True by done. by rewrite filter_cons_True.
    + rewrite decide_False by tauto. by rewrite filter_cons_False.
  - rewrite decide_False by (intros [-> ->]; done). done.
Qed.

Lemma confusion_matrix_cells (y_test predictions : list nat) r c :
  length predictions = length y_test ->
  Forall (fun t => (t < 10)%nat) y_test ->
  Forall (fun p => (p < 10)%nat) predictions ->
  (r < 10)%nat -> (c < 10)%nat ->
  entry (Eqx.confusion_matrix y_test predictions) r c
  = INR (cell_count y_test predictions r c).
Proof.
  intros Hl Hy Hp Hr Hc.
  destruct (confusion_after_spec y_test predictions (length y_test) Hy Hp Hl)
    as (_ & He & _); [lia|].
  unfold Eqx.confusion_matrix. rewrite He by done.
  rewrite firstn_all. by rewrite (take_ge predictions) by lia.
Qed.

End ConfusionMore.

(** X11.  For labels and predictions in [0, 9], every column [c] of the
    confusion matrix sums to the number of test samples predicted as
    [c]. *)
Theorem confusion_matrix_column_sums
    (y_test predictions : list nat) (c : nat) :
  length predictions = length y_test ->
  Forall (fun t => t < 10) y_test ->
  Forall (fun p => p < 10) predictions ->
  c < 10 ->
  sum_upto 10 (fun r => entry (Eqx.confusion_matrix y_test predictions) r c)
  = INR (class_count predictions c).
Proof.
  intros Hl Hy Hp Hc.
  rewrite (sum_upto_ext 10 _ (fun r => INR (cell_count y_test predictions r c))).
  - by apply cell_count_column.
  - intros r Hr. by apply confusion_matrix_cells.
Qed.

(** Three test samples, all predicted as class 1. *)
Lemma confusion_matrix_column_sums_witness :
  sum_upto 10 (fun r => entry (Eqx.confusion_matrix [1; 0; 1] [1; 1; 1]) r 1)
  = INR (class_count [1; 1; 1] 1).
Proof.
  apply (confusion_matrix_column_sums [1; 0; 1] [1; 1; 1] 1).
  - reflexivity.
  - repeat constructor.
  - repeat constructor.
  - lia.
Defined.

(** X12.  For labels and predictions in [0, 9], the diagonal of the
    confusion matrix sums to the number of correct predictions; and when
    every prediction is the true label the matrix is diagonal, with the
    class counts on the diagonal. *)
Theorem confusion_matrix_diagonal
    (y_test predictions : list nat) :
  length predictions = length y_test ->
  Forall (fun t => t < 10) y_test ->
  Forall (fun p => p < 10) predictions ->
  sum_upto 10 (fun r => entry (Eqx.confusion_matrix y_test predictions) r r)
  = INR (correct_count y_test predictions) /\
  (predictions = y_test ->
   forall r c, r < 10 -> c < 10 ->
     entry (Eqx.confusion_matrix y_test predictions) r c
     = if decide (r = c) then INR (class_count y_test r) else 0%R).
Proof.
  intros Hl Hy Hp. split.
  - rewrite (sum_upto_ext 10 _ (fun r => INR (cell_count y_test predictions r r))).
    + by apply cell_count_diagonal.
    + intros r Hr. by apply confusion_matrix_cells.
  - intros -> r c Hr Hc. rewrite confusion_matrix_cells by done.
    rewrite cell_count_perfect. by destruct (decide (r = c)).
Qed.

(** Three test samples, all of them predicted right. *)
Lemma confusion_matrix_diagonal_witness :
  sum_upto 10 (fun r => entry (Eqx.confusion_matrix [1; 0; 1] [1; 0; 1]) r r)
  = INR (correct_count [1; 0; 1] [1; 0; 1]) /\
  ([1; 0; 1] = [1; 0; 1] ->
   forall r c, r < 10 -> c < 10 ->
     entry (Eqx.confusion_matrix [1; 0; 1] [1; 0; 1]) r c
     = if decide (r = c) then INR (class_count [1; 0; 1] r) else 0%R).
Proof.
  apply (confusion_matrix_diagonal [1; 0; 1] [1; 0; 1]).
  - reflexivity.
  - repeat constructor.
  - repeat constructor.
Defined.

(** ** The data cell of the perceptron notebooks *)
Section DataCell.
Local Open Scope R_scope.
Import Scratch.

(** Row-major layout: entry [c] of row [r] lands at [r * w + c]. *)
Lemma concat_lookup {A} (image : list (list A)) w r c (row : list A) pixel :
  Forall (fun row => length row = w) image ->
  image !! r = Some row -> row !! c = Some pixel ->
  concat image !! (r * w + c)%nat = Some pixel.
Proof.
  intros Hw. revert r. induction Hw as [|row0 image Hr0 _ IH]; intros r Hr Hc;
    [done|].
  destruct r as [|r]; cbn [concat].
  - injection Hr as ->. cbn. by rewrite lookup_app_l by (by eapply lookup_lt_Some).
  - rewrite lookup_app_r by (rewrite Hr0; lia).
    replace (S r * w + c - length row0)%nat with (r * w + c)%nat
      by (rewrite Hr0; lia).
    by apply IH.
Qed.

Lemma length_concat_rows {A} (image : list (list A)) h w :
  length image = h -> Forall (fun row => length row = w) image ->
  length (concat image) = (h * w)%nat.
Proof.
  intros <- Hw. induction Hw as [|row image Hr _ IH]; [done|].
  cbn [concat length]. rewrite length_app, IH, Hr. lia.
Qed.

End DataCell.

(** X13.  On images of 28 rows of 28 pixels in [0, 255], the data cell
    returns one row of 784 values per image, every value in [0, 1], the
    pixel of row [r] and column [c] at position [r * 28 + c] divided by
    255; and the one-hot labels have one row of ten entries per label. *)
Theorem data_cell_shapes_and_range
    (x_train : list (list (list nat))) (y_train : list nat) :
  Forall (fun image =>
            length image = 28 /\
            Forall (fun row => length row = 28 /\
                               Forall (fun pixel => pixel <= 255) row) image)
         x_train ->
  Scratch.has_shape (Eqx.x_train_flat x_train) (length x_train) 784 /\
  Forall (Forall (fun v => (0 <= v <= 1)%R)) (Eqx.x_train_flat x_train) /\
  (forall b r c image row pixel,
     x_train !! b = Some image -> image !! r = Some row ->
     row !! c = Some pixel ->
     exists flat,
       Eqx.x_train_flat x_train !! b = Some flat /\
       flat !! (r * 28 + c) = Some (INR pixel / 255)%R) /\
  Scratch.has_shape (Eqx.y_train_1hot y_train) (length y_train) 10.
Proof.
  intros H. unfold Eqx.x_train_flat. split; [split|split; [|split]].
  - by rewrite length_fmap.
  - apply Forall_fmap. eapply Forall_impl; [exact H|].
    intros image [Hh Hrows]. simpl. rewrite length_fmap.
    rewrite (length_concat_rows image 28 28 Hh); [done|].
    eapply Forall_impl; [exact Hrows|]. by intros row [Hl _].
  - apply Forall_fmap. eapply Forall_impl; [exact H|].
    intros image [_ Hrows]. simpl. apply Forall_fmap.
    apply Forall_concat. eapply Forall_impl; [exact Hrows|].
    intros row [_ Hp]. simpl. eapply Forall_impl; [exact Hp|].
    intros pixel Hpx. simpl in *.
    assert (0 <= INR pixel)%R by apply pos_INR.
    assert (INR pixel <= 255)%R.
    { replace 255%R with (INR 255) by (rewrite INR_IZR_INZ; done).
      by apply le_INR. }
    split; lra.
  - intros b r c image row pixel Hb Hr Hc. eexists.
    rewrite list_lookup_fmap, Hb. split; [done|].
    rewrite list_lookup_fmap.
    pose proof (Forall_lookup_1 _ _ _ _ H Hb) as [_ Hrows].
    rewrite (concat_lookup image 28 r c row pixel); [done| |done|done].
    eapply Forall_impl; [exact Hrows|]. by intros ? [? _].
  - apply one_hot_rows_shape.
Qed.

(** One blank image labelled 3. *)
Lemma data_cell_shapes_and_range_witness :
  Scratch.has_shape (Eqx.x_train_flat [example_image]) (length [example_image]) 784 /\
  Forall (Forall (fun v => (0 <= v <= 1)%R)) (Eqx.x_train_flat [example_image]) /\
  (forall b r c image row pixel,
     [example_image] !! b = Some image -> image !! r = Some row ->
     row !! c = Some pixel ->
     exists flat,
       Eqx.x_train_flat [example_image] !! b = Some flat /\
       flat !! (r * 28 + c) = Some (INR pixel / 255)%R) /\
  Scratch.has_shape (Eqx.y_train_1hot [3]) (length [3]) 10.
Proof.
  apply (data_cell_shapes_and_range [example_image] [3]).
  constructor; [|constructor].
  split; [apply length_replicate|]. apply Forall_replicate.
  split; [apply length_replicate|]. apply Forall_replicate. lia.
Defined.

(** ** The training cell of the from-scratch notebook *)
Section Training.
Local Open Scope R_scope.
Import Scratch.

Lemma has_shape_scale c (m : list (list R)) rows cols :
  has_shape m rows cols -> has_shape (map (map (Rmult c)) m) rows cols.
Proof.
  intros [L S]. split; [by rewrite length_map|].
  apply Forall_map. eapply Forall_impl; [exact S|].
  intros r Hr. simpl. by rewrite length_map.
Qed.

(** The constructor builds a network of the sizes it is given. *)
Lemma init_shaped `{jr.Sampler key} input_size hidden_size output_size (k : key) :
  jr.shapes_as_asked ->
  exists nn, init input_size hidden_size output_size k = Some nn /\
             well_shaped nn input_size hidden_size output_size.
Proof.
  intros (Hsplit & Hvec & Hmat). unfold init.
  pose proof (Hsplit k 4%nat) as H4.
  destruct (jr.split k 4) as [|k1 [|k2 [|k3 [|k4 [|k5 ks]]]]]; try done.
  eexists. split; [done|]. split; [|done]. cbn [weights bias app np.scale].
  eexists _, _, _, _. split; [done|].
  split; [apply has_shape_scale; apply Hmat|].
  split; [apply has_shape_scale; apply Hmat|].
  by rewrite !length_map, !Hvec.
Qed.

Lemma rows_at_shape (a : list (list R)) N cols (inds : list nat) :
  has_shape a N cols -> Forall (fun i => (i < N)%nat) inds ->
  exists x, np.rows_at a inds = Some x /\ has_shape x (length inds) cols.
Proof.
  intros [La Sa] Hi. induction Hi as [|i inds Hlt _ (x & Hx & Lx & Sx)].
  - exists []. repeat split; constructor.
  - exists (a !!! i :: x). unfold np.rows_at in *. cbn [mapM].
    rewrite (list_lookup_lookup_total_lt a i) by lia. rewrite Hx. cbn.
    split; [done|]. split; [cbn [length]; by rewrite Lx|].
    constructor; [|done]. apply (shape_row a N cols i); [done|lia].
Qed.

Lemma rows_at_clamped_shape (a : list (list R)) N cols (inds : list nat) :
  has_shape a N cols -> Forall (fun i => (i < N)%nat) inds ->
  has_shape (np.rows_at_clamped a inds) (length inds) cols.
Proof.
  intros Ha Hi. unfold np.rows_at_clamped. split; [by rewrite length_fmap|].
  apply Forall_fmap. eapply Forall_impl; [exact Hi|].
  intros i Hlt. simpl in *. apply (shape_row a N cols); [done|].
  destruct Ha as [<- _]. lia.
Qed.

(** One turn of the loop runs on parameters of the network's shapes, and
    leaves parameters of the same shapes behind the same address. *)
Lemma train_step_runs grad s l P (x y : list (list R))
    input_size hidden_size output_size B :
  lists s !! l = Some P ->
  params_shaped P input_size hidden_size output_size ->
  has_shape x B input_size -> has_shape y B output_size ->
  Forall2 same_shape P (grad P x y) ->
  exists v s2 P',
    train_step grad l x y s = Some (v, l, s2) /\
    lists s2 !! l = Some P' /\
    params_shaped P' input_size hidden_size output_size.
Proof.
  intros HP HPs Hx Hy Hg.
  pose proof (lookup_lt_Some _ _ _ HP) as Hlt.
  destruct (params_shaped_network _ _ _ _ HPs) as (p0 & p1 & p2 & p3 & EP & Hw).
  assert (HP' : lists s !! l = Some [p0; p1; p2; p3]) by (by rewrite <- EP).
  destruct (loss_runs grad s l p0 p1 p2 p3 x y _ _ _ _ HP' Hw Hx Hy)
    as [v Hloss].
  rewrite <- EP in Hloss.
  set (P' := zip_with (descent (1 / 10)) P (grad P x y)).
  exists v. eexists. exists P'. unfold train_step. rewrite Hloss.
  cbn [mbind option_bind]. unfold optimiser, after_loss. cbn [lists].
  rewrite lookup_app_l, HP by done. cbn [mbind option_bind].
  rewrite optimiser_loop_spec by done. cbn [mbind option_bind].
  split; [done|]. cbn [lists]. split.
  - apply list_lookup_insert_eq. rewrite length_app. lia.
  - eapply params_shaped_same_shape; [exact HPs|].
    by apply zip_descent_same_shape.
Qed.

Lemma written_snoc (log : list R) v :
  filter (fun jv : nat * R => fst jv mod 10 = 0)%nat (imap pair (log ++ [v]))
  = filter (fun jv : nat * R => fst jv mod 10 = 0)%nat (imap pair log)
    ++ (if decide (length log mod 10 = 0)%nat then [(length log, v)] else []).
Proof.
  rewrite imap_app, filter_app. f_equal. cbn [imap]. rewrite Nat.add_0_r.
  destruct (decide (length log mod 10 = 0)%nat) as [H|H].
  - by rewrite filter_cons_True.
  - by rewrite filter_cons_False.
Qed.

Lemma train_loop_S `{jr.PRNG key} grad (k : key) (xs ys : list (list R)) B n t0 :
  train_loop grad k xs ys B (S n) t0
  = train_loop grad k xs ys B n t0 ≫= fun t => train_turn grad k xs ys B t n.
Proof. unfold train_loop. by rewrite seq_S, foldl_snoc. Qed.

End Training.

Section TrainingLoop.
Local Open Scope R_scope.
Import Scratch.
Context {key : Type} `{!jr.PRNG key}.
Variable grad : list array -> matrix -> matrix -> list array.
Variables input_size hidden_size output_size : nat.
Variables x_train_flat y_train_1hot : matrix.
Variable BATCH_SIZE : nat.
Hypothesis permutation_shuffles : jr.shuffles.
Hypothesis grad_mirrors :
  forall P x y, params_shaped P input_size hidden_size output_size ->
                Forall2 same_shape P (grad P x y).
Hypothesis x_shape : has_shape x_train_flat (Z.to_nat 60000) input_size.
Hypothesis y_shape : has_shape y_train_1hot (Z.to_nat 60000) output_size.
Hypothesis batch_fits : (BATCH_SIZE <= Z.to_nat 60000)%nat.

Lemma train_turn_runs (k : key) l n t :
  after_turns input_size hidden_size output_size l n t ->
  exists t', train_turn grad k x_train_flat y_train_1hot BATCH_SIZE t n
             = Some t' /\
             after_turns input_size hidden_size output_size l (S n) t'.
Proof.
  intros (Hl & (P & HP & HPs) & Hlog & Hw).
  destruct (choice_distinct permutation_shuffles (jr.fold_in k n)
              (Z.to_nat 60000) BATCH_SIZE batch_fits)
    as (ix & Hinds & _ & Li & Fi).
  destruct (rows_at_shape x_train_flat _ _ ix x_shape Fi) as (x & Hx & Sx).
  pose proof (rows_at_clamped_shape y_train_1hot _ _ ix y_shape Fi) as Sy.
  rewrite <- Hl in HP.
  destruct (train_step_runs grad (at_store t) (params_at t) P x
              (np.rows_at_clamped y_train_1hot ix) _ _ _ _ HP HPs Sx Sy
              (grad_mirrors _ _ _ HPs)) as (v & s2 & P' & Hstep & HP' & HPs').
  eexists. unfold train_turn, inds. cbn zeta. rewrite Hinds.
  cbn [mbind option_bind]. rewrite Hx. cbn [mbind option_bind].
  rewrite Hstep. cbn [mbind option_bind]. split; [done|].
  split; [done|]. cbn [params_at at_store loss_log written].
  split; [exists P'; by rewrite <- Hl|].
  split; [rewrite length_app; cbn; lia|].
  rewrite written_snoc, Hlog, <- Hw.
  destruct (decide (n mod 10 = 0)%nat); [done|by rewrite app_nil_r].
Qed.

Lemma train_loop_runs (k : key) l t0 n :
  after_turns input_size hidden_size output_size l 0 t0 ->
  exists t, train_loop grad k x_train_flat y_train_1hot BATCH_SIZE n t0
            = Some t /\
            after_turns input_size hidden_size output_size l n t.
Proof.
  intros H0. induction n as [|n (t & Ht & Hinv)].
  - exists t0. done.
  - destruct (train_turn_runs k l n t Hinv) as (t' & Ht' & Hinv').
    exists t'. rewrite train_loop_S, Ht. done.
Qed.

End TrainingLoop.

Section TrainingCell.
Local Open Scope R_scope.
Import Scratch.

Lemma write_back_eq l s p0 p1 p2 p3 rest :
  lists s !! l = Some (p0 :: p1 :: p2 :: p3 :: rest) ->
  write_back l s = Some (after_loss s p0 p1 p2 p3).
Proof.
  intros H. unfold write_back. rewrite H.
  cbn [mbind option_bind lookup list_lookup alloc lists nn_weights nn_bias].
  unfold after_loss. by rewrite <- app_assoc, length_app, Nat.add_1_r.
Qed.

Lemma written_lines (log : list R) (i : nat) (v : R) :
  (i, v) ∈ filter (fun jv : nat * R => fst jv mod 10 = 0)%nat (imap pair log)
  <-> (i mod 10 = 0)%nat /\ log !! i = Some v.
Proof.
  rewrite list_elem_of_filter, elem_of_lookup_imap. cbn [fst]. split.
  - intros (Hm & j & w & E & Hj). by injection E as -> ->.
  - intros (Hm & Hi). split; [done|]. by exists i, v.
Qed.

End TrainingCell.

(** X14. The training loop of the from-scratch notebook, started on a
    parameter list of the network's shapes with an empty log, on 60000
    rows of data, with a batch size of at most 60000, a generator that
    shuffles and a gradient of the shapes of the parameters: it runs
    through all its turns; the parameter list is the same object, still of
    the network's shapes; the log holds one loss per turn; and the lines
    written are, in order, the steps that are multiples of ten with the
    loss logged at that step. *)
Theorem training_loop_logs_every_turn_and_writes_every_tenth
    (key : Type) (prng : jr.PRNG key)
    (grad : list array -> matrix -> matrix -> list array)
    (input_size hidden_size output_size : nat)
    (x_train_flat y_train_1hot : matrix) (BATCH_SIZE TRAIN_ITERS : nat)
    (k : key) (s : Scratch.store) (nn_params : nat) (P : list array) :
  jr.shuffles ->
  (forall Q x y, Scratch.params_shaped Q input_size hidden_size output_size ->
                 Forall2 same_shape Q (grad Q x y)) ->
  Scratch.has_shape x_train_flat (Z.to_nat 60000) input_size ->
  Scratch.has_shape y_train_1hot (Z.to_nat 60000) output_size ->
  BATCH_SIZE <= Z.to_nat 60000 ->
  Scratch.lists s !! nn_params = Some P ->
  Scratch.params_shaped P input_size hidden_size output_size ->
  exists t,
    Scratch.train_loop grad k x_train_flat y_train_1hot BATCH_SIZE TRAIN_ITERS
      {| Scratch.params_at := nn_params; Scratch.loss_log := [];
         Scratch.written := []; Scratch.at_store := s |} = Some t /\
    Scratch.params_at t = nn_params /\
    (exists P', Scratch.lists (Scratch.at_store t) !! nn_params = Some P' /\
       Scratch.params_shaped P' input_size hidden_size output_size) /\
    length (Scratch.loss_log t) = TRAIN_ITERS /\
    Scratch.written t
    = filter (fun jv : nat * R => fst jv mod 10 = 0)
        (imap pair (Scratch.loss_log t)) /\
    (forall i v, (i, v) ∈ Scratch.written t <->
                 i mod 10 = 0 /\ Scratch.loss_log t !! i = Some v).
Proof.
  intros Hsh Hg Hx Hy HB HP HPs.
  destruct (train_loop_runs grad input_size hidden_size output_size
              x_train_flat y_train_1hot BATCH_SIZE Hsh Hg Hx Hy HB k nn_params
              {| Scratch.params_at := nn_params; Scratch.loss_log := [];
                 Scratch.written := []; Scratch.at_store := s |} TRAIN_ITERS)
    as (t & Ht & Hl & HP' & Hlog & Hw).
  { split; [done|]. split; [by exists P|]. done. }
  exists t. split; [done|]. split; [done|]. split; [done|]. split; [done|].
  split; [done|]. intros i v. rewrite Hw. apply written_lines.
Qed.

(** The loop of the notebook, 1000 turns on batches of 64, on the store of
    the small instance and 60000 blank images labelled 3. *)
Lemma training_loop_logs_every_turn_and_writes_every_tenth_witness :
  exists t,
    @Scratch.train_loop nat example_prng example_grad 0%nat
      (replicate (Z.to_nat 60000) (replicate 784 0%R))
      (replicate (Z.to_nat 60000) (jax.one_hot 3 10)) 64 1000
      {| Scratch.params_at := 2; Scratch.loss_log := [];
         Scratch.written := []; Scratch.at_store := example_store |} = Some t /\
    Scratch.params_at t = 2 /\
    (exists P', Scratch.lists (Scratch.at_store t) !! 2 = Some P' /\
       Scratch.params_shaped P' 784 1 10) /\
    length (Scratch.loss_log t) = 1000 /\
    Scratch.written t
    = filter (fun jv : nat * R => fst jv mod 10 = 0)
        (imap pair (Scratch.loss_log t)) /\
    (forall i v, (i, v) ∈ Scratch.written t <->
                 i mod 10 = 0 /\ Scratch.loss_log t !! i = Some v).
Proof.
  apply (training_loop_logs_every_turn_and_writes_every_tenth
           nat example_prng example_grad 784 1 10
           (replicate (Z.to_nat 60000) (replicate 784 0%R))
           (replicate (Z.to_nat 60000) (jax.one_hot 3 10)) 64 1000 0%nat
           example_store 2 example_params).
  - apply example_prng_shuffles.
  - intros Q x y _. apply example_grad_shape.
  - split; [apply length_replicate|].
    apply Forall_replicate. apply length_replicate.
  - split; [apply length_replicate|]. by apply Forall_replicate.
  - lia.
  - reflexivity.
  - apply example_params_shaped.
Defined.

(** X15. The training cell of the from-scratch notebook, on 60000 flat
    images of 784 pixels and 60000 rows of ten targets, with a generator
    that shuffles, a sampler that returns the shapes it is asked for and a
    gradient of the shapes of the parameters: the cell runs to its end;
    1000 losses are logged; the two attributes of the network are then
    the first two and the last two entries of the trained parameter list;
    and the network maps every input of 784 entries to a probability
    vector of ten entries. *)
Theorem training_cell_leaves_a_trained_classifier
    (key : Type) (prng : jr.PRNG key) (sampler : jr.Sampler key)
    (grad : list array -> matrix -> matrix -> list array) (key0 : key)
    (x_train_flat y_train_1hot : matrix) :
  jr.shuffles ->
  jr.shapes_as_asked ->
  (forall Q x y, Scratch.params_shaped Q 784 100 10 ->
                 Forall2 same_shape Q (grad Q x y)) ->
  Scratch.has_shape x_train_flat (Z.to_nat 60000) 784 ->
  Scratch.has_shape y_train_1hot (Z.to_nat 60000) 10 ->
  exists t P,
    Scratch.training_cell grad key0 x_train_flat y_train_1hot = Some t /\
    length (Scratch.loss_log t) = 1000 /\
    Scratch.lists (Scratch.at_store t) !! Scratch.params_at t = Some P /\
    Scratch.params_shaped P 784 100 10 /\
    Scratch.read_model (Scratch.at_store t)
    = Some {| Scratch.weights := take 2 P; Scratch.bias := drop 2 P |} /\
    (forall x, length x = 784 ->
       exists p, Scratch.nn_call (Scratch.at_store t) x = Some p /\
                 length p = 10 /\ probability_vector p).
Proof.
  intros Hsh Hsa Hg Hx Hy. unfold Scratch.training_cell.
  change (28 * 28)%nat with 784%nat.
  destruct (init_shaped 784 100 10 (jr.fold_in key0 1) Hsa)
    as (nn & Hnn & Hws).
  rewrite Hnn. cbn [mbind option_bind].
  pose proof Hws as [(w0 & w1 & b0 & b1 & HP & HS) Hlen].
  destruct nn as [W B]. cbn [Scratch.weights Scratch.bias] in *.
  destruct W as [|a0 [|a1 [|? ?]]]; try done. cbn [app] in HP.
  injection HP as -> -> ->.
  cbn [Scratch.init_params Scratch.lists Scratch.nn_weights Scratch.nn_bias
       lookup list_lookup mbind option_bind Scratch.alloc length].
  destruct (train_loop_runs grad 784 100 10 x_train_flat y_train_1hot 64
              Hsh Hg Hx Hy ltac:(lia) (jr.fold_in key0 1) 2%nat
              {| Scratch.params_at := 2; Scratch.loss_log := [];
                 Scratch.written := [];
                 Scratch.at_store :=
                   {| Scratch.lists :=
                        [[Mat w0; Mat w1]; [Vec b0; Vec b1]]
                        ++ [[Mat w0; Mat w1; Vec b0; Vec b1]];
                      Scratch.nn_weights := 0; Scratch.nn_bias := 1 |} |}
              1000)
    as (t & Ht & Hl & (P & HP & HPs) & Hlog & Hw).
  { split; [done|]. split; [|done].
    exists [Mat w0; Mat w1; Vec b0; Vec b1]. split; [done|].
    by exists w0, w1, b0, b1. }
  rewrite Ht. cbn [mbind option_bind]. rewrite Hl.
  pose proof HPs as (v0 & v1 & c0 & c1 & EP & S0 & S1 & L0 & L1).
  rewrite EP in HP. rewrite (write_back_eq _ _ _ _ _ _ _ HP).
  cbn [mbind option_bind]. eexists. exists P.
  split; [done|]. cbn [Scratch.loss_log Scratch.at_store Scratch.params_at].
  split; [done|]. split.
  { unfold after_loss. cbn [Scratch.lists]. rewrite lookup_app_l.
    - by rewrite EP.
    - by apply lookup_lt_Some in HP. }
  split; [done|]. rewrite read_model_after_loss. split; [by rewrite EP|].
  intros x Lx. unfold Scratch.nn_call. rewrite read_model_after_loss.
  cbn [mbind option_bind].
  destruct (scratch_call_softmax
              {| Scratch.weights := [Mat v0; Mat v1];
                 Scratch.bias := [Vec c0; Vec c1] |} x 100 10)
    as (h & Lh & Eh).
  { rewrite Lx. split; [|done]. by exists v0, v1, c0, c1. }
  exists (Scratch.softmax_activation h). split; [done|].
  split; [by rewrite length_softmax|].
  apply softmax_probability_vector. intros ->. simpl in Lh. lia.
Qed.

(** The cell on 60000 blank images labelled 3, with the generator that
    reverses and the sampler that returns zeros. *)
Lemma training_cell_leaves_a_trained_classifier_witness :
  exists t P,
    @Scratch.training_cell nat example_prng example_sampler example_grad 0%nat
      (replicate (Z.to_nat 60000) (replicate 784 0%R))
      (replicate (Z.to_nat 60000) (jax.one_hot 3 10)) = Some t /\
    length (Scratch.loss_log t) = 1000 /\
    Scratch.lists (Scratch.at_store t) !! Scratch.params_at t = Some P /\
    Scratch.params_shaped P 784 100 10 /\
    Scratch.read_model (Scratch.at_store t)
    = Some {| Scratch.weights := take 2 P; Scratch.bias := drop 2 P |} /\
    (forall x, length x = 784 ->
       exists p, Scratch.nn_call (Scratch.at_store t) x = Some p /\
                 length p = 10 /\ probability_vector p).
Proof.
  apply (training_cell_leaves_a_trained_classifier
           nat example_prng example_sampler example_grad 0%nat
           (replicate (Z.to_nat 60000) (replicate 784 0%R))
           (replicate (Z.to_nat 60000) (jax.one_hot 3 10))).
  - apply example_prng_shuffles.
  - split; [|split].
    + intros k n. apply length_replicate.
    + intros k n. apply length_replicate.
    + intros k r c. split; [apply length_replicate|].
      apply Forall_replicate. apply length_replicate.
  - intros Q x y _. apply example_grad_shape.
  - split; [apply length_replicate|].
    apply Forall_replicate. apply length_replicate.
  - split; [apply length_replicate|]. by apply Forall_replicate.
Defined.

(** ** The data cell of the neural-ODE notebook *)
Section OdeData.

Lemma mapM_seq {B} (f : nat -> option B) (N : nat) :
  (forall n, n < N -> is_Some (f n)) ->
  exists l, mapM f (seq 0 N) = Some l /\ length l = N /\
            forall n, n < N -> l !! n = f n.
Proof.
  intros Hf.
  destruct (mapM_is_Some_2 f (seq 0 N)) as [l Hl].
  { apply Forall_forall. intros n Hn. apply elem_of_seq in Hn. apply Hf. lia. }
  exists l. split; [done|].
  pose proof (length_mapM _ _ _ Hl) as Hlen. rewrite length_seq in Hlen.
  split; [done|]. intros n Hn. apply mapM_Some_1 in Hl.
  destruct (Forall2_lookup_l _ _ _ n n Hl) as (y & Hy & Hfy).
  { by apply lookup_seq_lt. }
  by rewrite Hy, Hfy.
Qed.

Lemma mask_index_Forall {A} (P : A -> Prop) (x : list A) (mask : list bool) :
  Forall P x -> Forall P (NeuralODE.mask_index x mask).
Proof.
  intros Hx. revert mask. induction Hx as [|a x Ha Hx IH]; intros [|b mask];
    try by constructor.
  unfold NeuralODE.mask_index in *. cbn [zip_with].
  destruct b.
  - rewrite filter_cons_True by done. cbn [fmap list_fmap fst].
    constructor; [done|apply IH].
  - rewrite filter_cons_False by (cbn; tauto). apply IH.
Qed.

Lemma x_train_one_channel mnist_x_train :
  Forall (fun sample => length sample = 1) (NeuralODE.x_train mnist_x_train).
Proof. unfold NeuralODE.x_train. apply Forall_fmap. by apply Forall_true. Qed.

(** The grouping cell returns the ten classes, each cut to the least of
    the ten class counts. *)
Lemma grouped_spec {A} (x : list A) (y : list nat) :
  length x = length y ->
  exists m,
    NeuralODE.x_train_grouped x y
    = Some (take m <$> (rows_of_class x y <$> seq 0 10)) /\
    (forall c, c < 10 -> m <= class_count y c) /\
    (exists c, c < 10 /\ m = class_count y c).
Proof.
  intros Hl. unfold NeuralODE.x_train_grouped. rewrite group_loop_spec.
  set (rows := rows_of_class x y).
  set (G := rows <$> seq 0 10).
  set (L := (length ∘ rows) <$> seq 0 10).
  destruct (np.min L) as [m|] eqn:Hm; [|done].
  cbn [mbind option_bind].
  destruct (np_min_spec L m Hm) as [Hle Hin].
  assert (HL : forall c, c < 10 -> L !! c = Some (class_count y c)).
  { intros c Hc. unfold L. rewrite list_lookup_fmap, lookup_seq_lt by done.
    cbn. unfold rows. by rewrite length_rows_of_class. }
  rewrite (truncate_loop_spec m G 10) by done.
  rewrite firstn_all2 by done. rewrite (drop_ge G 10) by done.
  rewrite app_nil_r. exists m. split; [done|]. split.
  - intros c Hc.
    apply (Forall_lookup_1 (fun t => m <= t) L c _ Hle (HL c Hc)).
  - apply list_elem_of_lookup in Hin as [c Hc].
    assert (Hc10 : c < 10).
    { apply lookup_lt_Some in Hc. unfold L in Hc.
      by rewrite length_fmap, length_seq in Hc. }
    exists c. split; [done|]. rewrite (HL c Hc10) in Hc. by injection Hc.
Qed.

End OdeData.

Section OdeRearrange.

Lemma rearrange_spec {Img} (G : list (list (list Img))) (N : nat) :
  G <> [] ->
  Forall (fun h => length h = N /\
                   Forall (fun sample => length sample = 1) h) G ->
  exists arr,
    NeuralODE.rearrange G = Some arr /\ length arr = N /\
    forall n, n < N ->
      exists row, arr !! n = Some row /\ length row = length G /\
        forall c, c < length G ->
          exists h, G !! c = Some h /\ row !! c = h !! n.
Proof.
  intros Hne HG. destruct G as [|g G']; [done|].
  pose proof (Forall_inv HG) as [Lg Hg].
  unfold NeuralODE.rearrange. cbn [head mbind option_bind].
  set (G := g :: G') in *. rewrite Lg.
  destruct (decide (N = 0)) as [->|HN].
  - assert (g = []) as -> by (by destruct g).
    cbn [head from_option]. rewrite decide_True.
    + exists []. split; [done|]. split; [done|]. intros n Hn. lia.
    + eapply Forall_impl; [exact HG|]. intros h [Lh _]. split; [done|].
      assert (h = []) as -> by (by destruct h). constructor.
  - destruct g as [|s0 g0]; [simpl in Lg; lia|].
    apply Forall_inv in Hg as Ls0. cbn [head from_option]. rewrite Ls0.
    rewrite decide_True by done. rewrite Nat.mul_1_l.
    assert (Hin : forall n j, n < N -> j < length G ->
              exists h sample, G !! j = Some h /\ h !! n = Some sample /\
                (G !! (j mod length G) ≫= fun h =>
                   h !! n ≫= fun sample =>
                     sample !! (j / length G) ≫= fun plane => Some [plane])
                = Some sample).
    { intros n j Hn Hj. rewrite Nat.mod_small, Nat.div_small by done.
      destruct (lookup_lt_is_Some_2 G j Hj) as [h Hh].
      destruct (Forall_lookup_1 _ _ _ _ HG Hh) as [Lh Hs].
      destruct (lookup_lt_is_Some_2 h n ltac:(lia)) as [s Hsn].
      pose proof (Forall_lookup_1 _ _ _ _ Hs Hsn) as Ls. simpl in Ls.
      exists h, s. split; [done|]. split; [done|].
      rewrite Hh. cbn [mbind option_bind]. rewrite Hsn.
      cbn [mbind option_bind].
      destruct s as [|p [|? ?]]; try done. }
    assert (Hrow : forall n, n < N ->
              exists row,
                mapM (fun j =>
                        G !! (j mod length G) ≫= fun h =>
                          h !! n ≫= fun sample =>
                            sample !! (j / length G) ≫= fun plane =>
                              Some [plane]) (seq 0 (length G)) = Some row /\
                length row = length G /\
                forall c, c < length G ->
                  exists h, G !! c = Some h /\ row !! c = h !! n).
    { intros n Hn.
      destruct (mapM_seq
                  (fun j =>
                     G !! (j mod length G) ≫= fun h =>
                       h !! n ≫= fun sample =>
                         sample !! (j / length G) ≫= fun plane =>
                           Some [plane]) (length G))
        as (row & Hr & Lr & Hlk).
      { intros j Hj. destruct (Hin n j Hn Hj) as (h & s & _ & _ & ->). done. }
      exists row. split; [done|]. split; [done|]. intros c Hc.
      destruct (Hin n c Hn Hc) as (h & s & Hh & Hs & Hv).
      exists h. split; [done|]. by rewrite (Hlk c Hc), Hv, Hs. }
    destruct (mapM_seq
                (fun n =>
                   mapM (fun j =>
                           G !! (j mod length G) ≫= fun h =>
                             h !! n ≫= fun sample =>
                               sample !! (j / length G) ≫= fun plane =>
                                 Some [plane]) (seq 0 (length G))) N)
      as (arr & Ha & La & Hlk).
    { intros n Hn. destruct (Hrow n Hn) as (row & -> & _). done. }
    exists arr. split; [done|]. split; [done|]. intros n Hn.
    destruct (Hrow n Hn) as (row & Hr & Lr & Hc).
    exists row. split; [by rewrite (Hlk n Hn)|]. done.
Qed.

End OdeRearrange.

(** X16. The data cell of the neural-ODE notebook, run on images and
    labels of one length, returns [X0] and [XT] with as many rows as the
    least of the ten class counts; row [n] of [X0] is the [n]-th image of
    class 0 (scaled, with its channel axis), and row [n] of [XT] holds
    nine images, the one at position [c - 1] being the [n]-th image of
    class [c]. *)
Theorem data_cell_pairs_each_zero_with_the_other_digits
    (mnist_x_train : list (list (list nat))) (y_train : list nat) :
  length mnist_x_train = length y_train ->
  exists X0 XT minlength,
    NeuralODE.data_cell mnist_x_train y_train = Some (X0, XT) /\
    (forall c, c < 10 -> minlength <= class_count y_train c) /\
    (exists c, c < 10 /\ minlength = class_count y_train c) /\
    length X0 = minlength /\ length XT = minlength /\
    forall n, n < minlength ->
      X0 !! n
      = rows_of_class (NeuralODE.x_train mnist_x_train) y_train 0 !! n /\
      exists row, XT !! n = Some row /\ length row = 9 /\
        forall c, 1 <= c < 10 ->
          row !! (c - 1)
          = rows_of_class (NeuralODE.x_train mnist_x_train) y_train c !! n.
Proof.
  intros Hl. unfold NeuralODE.data_cell.
  set (x := NeuralODE.x_train mnist_x_train).
  assert (Hlx : length x = length y_train)
    by (unfold x, NeuralODE.x_train; by rewrite length_fmap).
  destruct (grouped_spec x y_train Hlx) as (m & -> & Hle & Hmin).
  cbn [mbind option_bind].
  set (rows := rows_of_class x y_train).
  set (G := take m <$> (rows <$> seq 0 10)).
  assert (LG : length G = 10) by (unfold G; by rewrite !length_fmap, length_seq).
  assert (HGc : forall c, c < 10 -> G !! c = Some (take m (rows c))).
  { intros c Hc. unfold G. rewrite !list_lookup_fmap, lookup_seq_lt by done.
    done. }
  assert (Lrows : forall c, c < 10 -> m <= length (rows c)).
  { intros c Hc. unfold rows. rewrite length_rows_of_class by done.
    by apply Hle. }
  destruct (rearrange_spec G m) as (arr & -> & La & Harr).
  { intros E. rewrite E in LG. done. }
  { apply Forall_lookup_2. intros c h Hh.
    assert (Hc : c < 10) by (apply lookup_lt_Some in Hh; lia).
    rewrite (HGc c Hc) in Hh. injection Hh as <-. split.
    - rewrite length_take. specialize (Lrows c Hc). lia.
    - apply Forall_take. unfold rows, rows_of_class.
      apply mask_index_Forall, x_train_one_channel. }
  cbn [mbind option_bind].
  assert (Hrows : forall n row, arr !! n = Some row -> length row = 10 /\
            forall c, c < 10 -> row !! c = rows c !! n).
  { intros n row Hr.
    assert (Hn : n < m) by (apply lookup_lt_Some in Hr; lia).
    destruct (Harr n Hn) as (row' & Hr' & Lr & Hc).
    rewrite Hr in Hr'. injection Hr' as <-. split; [lia|].
    intros c Hc10. destruct (Hc c ltac:(lia)) as (h & Hh & ->).
    rewrite (HGc c Hc10) in Hh. injection Hh as <-.
    by apply lookup_take_lt. }
  destruct (mapM_is_Some_2 (fun row : list (list matrix) => row !! 0) arr)
    as [X0 HX0].
  { apply Forall_lookup_2. intros n row Hr. unfold compose.
    apply lookup_lt_is_Some_2. destruct (Hrows n row Hr) as [-> _]. lia. }
  rewrite HX0. cbn [mbind option_bind].
  exists X0, (drop 1 <$> arr), m. split; [done|]. split; [done|].
  split; [done|].
  pose proof (length_mapM _ _ _ HX0) as LX0.
  split; [lia|]. split; [by rewrite length_fmap|]. intros n Hn.
  destruct (lookup_lt_is_Some_2 arr n ltac:(lia)) as [row Hr].
  destruct (Hrows n row Hr) as [Lr Hc]. split.
  - destruct (Forall2_lookup_l _ _ _ n row (mapM_Some_1 _ _ _ HX0) Hr)
      as (s & -> & Hs).
    rewrite <- Hs. apply Hc. lia.
  - exists (drop 1 row). split; [by rewrite list_lookup_fmap, Hr|].
    split; [rewrite length_drop; lia|]. intros c Hc10.
    rewrite lookup_drop. replace (1 + (c - 1)) with c by lia.
    apply Hc. lia.
Qed.

(** Ten blank images, one of every digit. *)
Lemma data_cell_pairs_each_zero_with_the_other_digits_witness :
  exists X0 XT minlength,
    NeuralODE.data_cell (replicate 10 example_image) (seq 0 10)
    = Some (X0, XT) /\
    (forall c, c < 10 -> minlength <= class_count (seq 0 10) c) /\
    (exists c, c < 10 /\ minlength = class_count (seq 0 10) c) /\
    length X0 = minlength /\ length XT = minlength /\
    forall n, n < minlength ->
      X0 !! n
      = rows_of_class (NeuralODE.x_train (replicate 10 example_image))
          (seq 0 10) 0 !! n /\
      exists row, XT !! n = Some row /\ length row = 9 /\
        forall c, 1 <= c < 10 ->
          row !! (c - 1)
          = rows_of_class (NeuralODE.x_train (replicate 10 example_image))
              (seq 0 10) c !! n.
Proof.
  apply (data_cell_pairs_each_zero_with_the_other_digits
           (replicate 10 example_image) (seq 0 10)).
  reflexivity.
Defined.

Section OdeBatch.

Lemma rows_at_lookup {A} (a : list A) (ix : list nat) :
  Forall (fun i => i < length a) ix ->
  exists rows, np.rows_at a ix = Some rows /\ length rows = length ix /\
    forall j n, ix !! j = Some n -> rows !! j = a !! n.
Proof.
  intros Hix. unfold np.rows_at.
  destruct (mapM_is_Some_2 (fun i => a !! i) ix) as [rows Hr].
  { eapply Forall_impl; [exact Hix|]. intros i Hi.
    by apply lookup_lt_is_Some_2. }
  exists rows. split; [done|]. split; [symmetry; by eapply length_mapM|].
  intros j n Hj.
  destruct (Forall2_lookup_l _ _ _ j n (mapM_Some_1 _ _ _ Hr) Hj)
    as (r & -> & Hn).
  done.
Qed.

End OdeBatch.

(** X17. The batch of a step of [train] in the neural-ODE notebook: with
    a generator that shuffles, a batch size of at most 5421 and at least
    5421 rows in [X0] and as many in [XT], the draw and the two gathers
    succeed; the indices drawn are distinct; and row [j] of [x0] and row
    [j] of [xt] are the rows of [X0] and [XT] at one and the same index,
    the [j]-th drawn. *)
Theorem batch_pairs_rows_of_one_index
    (key : Type) (prng : jr.PRNG key) {S0 ST : Type}
    (k : key) (i BATCH_SIZE : nat) (X0 : list S0) (XT : list ST) :
  jr.shuffles ->
  BATCH_SIZE <= Z.to_nat 5421 ->
  Z.to_nat 5421 <= length X0 ->
  length XT = length X0 ->
  exists inds x0 xt,
    NeuralODE.inds k i BATCH_SIZE = Some inds /\
    NeuralODE.batch k i BATCH_SIZE X0 XT = Some (x0, xt) /\
    NoDup inds /\
    length x0 = BATCH_SIZE /\ length xt = BATCH_SIZE /\
    forall j, j < BATCH_SIZE ->
      exists n, inds !! j = Some n /\ n < Z.to_nat 5421 /\
                x0 !! j = X0 !! n /\ xt !! j = XT !! n.
Proof.
  intros Hsh HB HX HT.
  destruct (choice_distinct Hsh (NeuralODE.train_key k i)
              (Z.to_nat 5421) BATCH_SIZE HB) as (ix & Hix & Hnd & Lix & Fix).
  assert (F0 : Forall (fun n => n < length X0) ix).
  { eapply Forall_impl; [exact Fix|]. intros n Hn. simpl in Hn. lia. }
  assert (FT : Forall (fun n => n < length XT) ix) by (by rewrite HT).
  destruct (rows_at_lookup X0 ix F0) as (x0 & H0 & L0 & K0).
  destruct (rows_at_lookup XT ix FT) as (xt & H1 & L1 & K1).
  exists ix, x0, xt. unfold NeuralODE.batch, NeuralODE.inds.
  rewrite Hix. cbn [mbind option_bind]. rewrite H0. cbn [mbind option_bind].
  rewrite H1. cbn [mbind option_bind].
  split; [done|]. split; [done|]. split; [done|].
  split; [lia|]. split; [lia|]. intros j Hj.
  destruct (lookup_lt_is_Some_2 ix j ltac:(lia)) as [n Hn].
  exists n. split; [done|].
  split; [apply (Forall_lookup_1 _ _ _ _ Fix Hn)|].
  split; [by apply K0|by apply K1].
Qed.

(** X18. The pool of the draw is the literal 5421, whatever the data:
    when the draw holds an index that is not a row of [X0], the gather
    fails and the step has no batch. *)
Theorem batch_fails_on_an_index_past_the_data
    (key : Type) (prng : jr.PRNG key) {S0 ST : Type}
    (k : key) (i BATCH_SIZE : nat) (X0 : list S0) (XT : list ST)
    (inds : list nat) (n : nat) :
  NeuralODE.inds k i BATCH_SIZE = Some inds ->
  n ∈ inds ->
  length X0 <= n ->
  NeuralODE.batch k i BATCH_SIZE X0 XT = None.
Proof.
  intros Hix Hn Hlen. unfold NeuralODE.batch. rewrite Hix.
  cbn [mbind option_bind].
  assert (E : np.rows_at X0 inds = None).
  { unfold np.rows_at. apply mapM_None_2. apply Exists_exists.
    exists n. split; [done|]. by apply lookup_ge_None_2. }
  by rewrite E.
Qed.

(** The first step, on 5421 blank images and as many rows of nine. *)
Lemma batch_pairs_rows_of_one_index_witness :
  exists inds x0 xt,
    @NeuralODE.inds nat example_prng 0 0 32 = Some inds /\
    @NeuralODE.batch nat example_prng _ _ 0 0 32
      (replicate (Z.to_nat 5421) example_image)
      (replicate (Z.to_nat 5421) (replicate 9 example_image))
    = Some (x0, xt) /\
    NoDup inds /\
    length x0 = 32 /\ length xt = 32 /\
    forall j, j < 32 ->
      exists n, inds !! j = Some n /\ n < Z.to_nat 5421 /\
                x0 !! j = replicate (Z.to_nat 5421) example_image !! n /\
                xt !! j
                = replicate (Z.to_nat 5421) (replicate 9 example_image) !! n.
Proof.
  apply (batch_pairs_rows_of_one_index nat example_prng 0 0 32
           (replicate (Z.to_nat 5421) example_image)
           (replicate (Z.to_nat 5421) (replicate 9 example_image))).
  - apply example_prng_shuffles.
  - lia.
  - rewrite length_replicate. lia.
  - by rewrite !length_replicate.
Defined.

(** The first step on a data set of ten rows: the generator that
    reverses draws the index 5420. *)
Lemma batch_fails_on_an_index_past_the_data_witness :
  @NeuralODE.batch nat example_prng _ _ 0 0 1
    (replicate 10 example_image) (replicate 10 (replicate 9 example_image))
  = None.
Proof.
  apply (batch_fails_on_an_index_past_the_data nat example_prng 0 0 1
           (replicate 10 example_image)
           (replicate 10 (replicate 9 example_image))
           [Z.to_nat 5420] (Z.to_nat 5420)).
  - vm_compute. reflexivity.
  - apply list_elem_of_singleton. reflexivity.
  - rewrite length_replicate. lia.
Defined.
